(** * scripts/build.js: the mod build script

    A shallow embedding of [scripts/build.js]: command-line parsing, the
    manifest reader, build staging, the size-splitting packer
    [compressToPak] and the final bundler [packMod], followed by the
    properties of the script that its specification states.

    Conventions of the embedding:
    - JavaScript strings are [string]s over 8-bit characters; case folding
      acts on the ASCII letters.
    - File sizes ([statSync(f).size]) are natural numbers in [N]; the sums
      formed by the packer stay far below 2^53, where JavaScript numbers
      are exact.
    - The script is synchronous and talks to the outside through [fs],
      [child_process] and [console].  Every such call is recorded, in
      program order, as an [Event]; what the outside answers is read from a
      [World].  A run yields the events and an [Outcome].
    - The [while] loop of the packer has no bound in the source; the
      embedding gives it fuel and reports [Spinning] when the fuel is gone.
    - The calls of [fs] are taken to do what they are asked: a run in
      which [readdirSync], [statSync], [cpSync], [mkdirSync], [rmSync] or
      [renameSync] throws is not described.  Of all calls only [execSync]
      is given a failing answer, so [Threw] stands for the failure of an
      external tool; nothing is stated here about where exceptions in
      general arise. *)

From Stdlib Require Import String Ascii List NArith Arith Bool Lia.
From Stdlib Require Import DecimalString DecimalNat.
Import ListNotations.

Local Open Scope string_scope.
Local Open Scope list_scope.

Set Implicit Arguments.

(** ** JavaScript string primitives *)

Module JsString.

(** The one-character string holding a double quote (code 34). *)
Definition dquote : string := String (ascii_of_nat 34) EmptyString.

(** The line feed that template literals in the source contain. *)
Definition newline : string := String (ascii_of_nat 10) EmptyString.

(** [s.startsWith(p)] *)
Definition startsWith (s p : string) : bool := String.prefix p s.

(** [s.endsWith(p)] *)
Definition endsWith (s p : string) : bool :=
  let n := String.length s in
  let m := String.length p in
  (m <=? n)%nat && String.eqb (substring (n - m) m s) p.

Definition lowerChar (c : ascii) : ascii :=
  let n := nat_of_ascii c in
  if ((65 <=? n) && (n <=? 90))%nat then ascii_of_nat (n + 32) else c.

(** [s.toLowerCase()] *)
Fixpoint toLowerCase (s : string) : string :=
  match s with
  | EmptyString => EmptyString
  | String c s' => String (lowerChar c) (toLowerCase s')
  end.

Fixpoint dropChars (n : nat) (s : string) : string :=
  match n, s with
  | O, _ => s
  | S n', String _ s' => dropChars n' s'
  | S _, EmptyString => EmptyString
  end.

(** [s.replace(pat, rep)] with a string pattern: the first occurrence of
    [pat] only; [s] itself when [pat] does not occur.  The replacement
    texts of the script hold no [$], so they are inserted as they are. *)
Fixpoint replace (s pat rep : string) : string :=
  if String.prefix pat s then rep ++ dropChars (String.length pat) s
  else match s with
       | EmptyString => EmptyString
       | String c s' => String c (replace s' pat rep)
       end.

(** [s.split(sep)] for a one-character separator. *)
Fixpoint split (sep : ascii) (s : string) : list string :=
  match s with
  | EmptyString => [EmptyString]
  | String c s' =>
      if Ascii.eqb c sep then EmptyString :: split sep s'
      else match split sep s' with
           | [] => [String c EmptyString]
           | w :: ws => String c w :: ws
           end
  end.

(** [xs.join(sep)] *)
Definition join (sep : string) (xs : list string) : string :=
  String.concat sep xs.

(** [xs.includes(x)] on an array of strings. *)
Definition includes (xs : list string) (x : string) : bool :=
  existsb (String.eqb x) xs.

(** A number inside a template literal: its decimal digits. *)
Definition ofNat (n : nat) : string :=
  NilZero.string_of_uint (Nat.to_uint n).

(** Truthiness of a value that is a string or [undefined]. *)
Definition truthy (v : option string) : bool :=
  match v with
  | Some (String _ _) => true
  | _ => false
  end.

(** [a || b] where [b] is a string. *)
Definition orElse (a : option string) (b : string) : string :=
  match a with
  | Some (String c s) => String c s
  | _ => b
  end.

(** [a || b] where both may be [undefined]. *)
Definition orElseOpt (a b : option string) : option string :=
  if truthy a then a else b.

End JsString.

Import JsString.

(** ** Node's [path] module on normalized POSIX paths *)

Module Path.

(** [join(a, b)] for a normalized directory [a] and a plain segment [b]. *)
Definition join (a b : string) : string := a ++ "/" ++ b.

(** [relative(from, to)] for a path [to] below the directory [from]; any
    other [to] is handed back as it is. *)
Definition relative (from to : string) : string :=
  if String.prefix (from ++ "/") to
  then dropChars (String.length from + 1) to
  else to.

End Path.

(** ** The outside world and the events of a run *)

(** A directory listing as [readdirSync] and [statSync(..).isDirectory()]
    present it: plain files and directories with their own listing, in
    directory-listing order. *)
#[warnings="-register-all"]
Inductive Entry : Type :=
| EFile (name : string)
| EDir (name : string) (items : list Entry).

Definition entryName (e : Entry) : string :=
  match e with
  | EFile n => n
  | EDir n _ => n
  end.

(** The two external tools, with the arguments the script gives them. *)
Inductive Command : Type :=
| Zip (pakPath : string) (files : list string)
| SevenZipAdd (binary archive content : string).

Definition quoted (s : string) : string := dquote ++ s ++ dquote.

(** The shell text of a command, as the template literals build it. *)
Definition render (c : Command) : string :=
  match c with
  | Zip pakPath files =>
      "zip -r -9 -X " ++ quoted pakPath ++ " " ++ join " " (map quoted files)
  | SevenZipAdd binary archive content =>
      quoted binary ++ " a " ++ quoted archive ++ " " ++ quoted content
  end.

(** What one invocation of the compression tool leads to: [execSync]
    throws on a nonzero exit; otherwise [existsSync(pakPath)] is asked. *)
Inductive ToolResult : Type :=
| ToolFailed
| ToolLeftNothing
| ToolCreated.

Inductive Event : Type :=
| ConsoleLog (text : string)
| ConsoleError (text : string)
| RmSync (path : string) (recursiveForce : bool)
| MkdirSync (path : string)
| CpSync (source destination : string)
| RenameSync (oldPath newPath : string)
| ExecSync (cmd : Command) (cwd : option string).

Record World : Type := {
  (** [process.env.MODE] and [process.env.VERSION] *)
  envMODE : option string;
  envVERSION : option string;
  (** [resolve(__dirname, "..")] *)
  rootDirectory : string;
  (** the text of [src/mod.manifest]; [None] when the file is absent *)
  manifest : option string;
  (** the listing of the staged [Data] directory once the source tree
      has been copied *)
  dataEntries : list Entry;
  (** [statSync(file).size] *)
  statSize : string -> N;
  (** the compression tool, asked with the pak path and the file list *)
  zipTool : string -> list string -> ToolResult;
  (** whether the archival tool exits with zero *)
  sevenZipTool : Command -> bool;
  (** [existsSync] of a path outside the staging directory *)
  existsAtStart : string -> bool
}.

(** How a run ends: the function returns, [process.exit(code)] is called,
    an exception escapes, or the loop is still turning when the fuel of
    the embedding is used up. *)
Inductive Outcome (A : Type) : Type :=
| Returned (a : A)
| Exited (code : nat)
| Threw
| Spinning.

Arguments Exited {A} code.
Arguments Threw {A}.
Arguments Spinning {A}.

Definition Run (A : Type) : Type := (list Event * Outcome A)%type.

Module RunMonad.

Definition ret {A} (a : A) : Run A := ([], Returned a).

Definition bind {A B} (m : Run A) (k : A -> Run B) : Run B :=
  match m with
  | (t, Returned a) => let (t', o) := k a in (t ++ t', o)
  | (t, Exited c) => (t, Exited c)
  | (t, Threw) => (t, Threw)
  | (t, Spinning) => (t, Spinning)
  end.

Definition emit (e : Event) : Run unit := ([e], Returned tt).

Definition processExit {A} (code : nat) : Run A := ([], Exited code).

Definition throw {A} : Run A := ([], Threw).

Definition spin {A} : Run A := ([], Spinning).

(** [if (c) { body }] *)
Definition when (c : bool) (body : Run unit) : Run unit :=
  if c then body else ret tt.

End RunMonad.

Import RunMonad.

Notation "x <- m ;; k" := (bind m (fun x => k))
  (at level 61, m at next level, right associativity).
Notation "m ;; k" := (bind m (fun _ => k))
  (at level 61, right associativity).

Definition trace {A} (r : Run A) : list Event := fst r.
Definition outcome {A} (r : Run A) : Outcome A := snd r.

(** ** Command line and manifest (lines 17-73) *)

Definition validEnvironments : list string := ["prod"; "dev"].
Definition validVersions : list string := ["main"; "lorem-ipsum"].

(** [args.find((arg) => arg.startsWith(flag))?.split("=")[1]] *)
Definition flagValue (flag : string) (args : list string) : option string :=
  match find (fun arg => startsWith arg flag) args with
  | Some arg => nth_error (split "=" arg) 1
  | None => None
  end.

Definition parseEnvironment (w : World) (args : list string) : string :=
  orElse (orElseOpt (flagValue "--env=" args) (envMODE w)) "dev".

Definition parseVersion (w : World) (args : list string) : string :=
  orElse (orElseOpt (flagValue "--version=" args) (envVERSION w)) "main".

Definition usage : string :=
  newline ++
  "Usage: node build.js [--env=prod|dev] [--version=main|lorem-ipsum] [--help]" ++ newline ++
  "--env=prod|dev          Sets the environment (default: prod)." ++ newline ++
  "--version=main|lorem-ipsum   Sets the version (default: main)." ++ newline ++
  "--help                  Displays this help message." ++ newline.

(** The characters that [.] of a regular expression does not match, among
    the 8-bit characters: line feed and carriage return. *)
Definition isLineTerminator (c : ascii) : bool :=
  Ascii.eqb c (ascii_of_nat 10) || Ascii.eqb c (ascii_of_nat 13).

(** The capture of [(.+?)] followed by [close], tried at the start of
    [s]: the shortest non-empty run without line terminator after which
    [close] stands. *)
Fixpoint lazyCapture (close s : string) : option string :=
  match s with
  | EmptyString => None
  | String c s' =>
      if isLineTerminator c then None
      else if String.prefix close s' then Some (String c EmptyString)
      else option_map (String c) (lazyCapture close s')
  end.

(** [/<tag>(.+?)<\/tag>/.exec(content)?.[1]]: the leftmost position at
    which the whole pattern matches decides. *)
Fixpoint execTag (open close content : string) : option string :=
  let here :=
    if String.prefix open content
    then lazyCapture close (dropChars (String.length open) content)
    else None in
  match here with
  | Some v => Some v
  | None =>
      match content with
      | EmptyString => None
      | String _ rest => execTag open close rest
      end
  end.

Definition tagged (tag content : string) : option string :=
  execTag ("<" ++ tag ++ ">") ("</" ++ tag ++ ">") content.

Record Manifest : Type := {
  modIdentifier : option string;
  modVersion : option string;
  modName : option string
}.

Definition readManifest (manifestContent : string) : Manifest :=
  {| modIdentifier := tagged "modid" manifestContent;
     modVersion := tagged "version" manifestContent;
     modName := tagged "name" manifestContent |}.

(** [!modIdentifier || !modVersion || !modName] *)
Definition manifestIncomplete (m : Manifest) : bool :=
  negb (truthy (modIdentifier m)) || negb (truthy (modVersion m))
  || negb (truthy (modName m)).

(** A field inside a template literal, once it is known to be a string. *)
Definition text (v : option string) : string :=
  match v with
  | Some s => s
  | None => "undefined"
  end.

(** ** The size-splitting packer (lines 94-163) *)

(** [buildFileList(dir)]: one entry of the listing of [dir].  The array
    [fileList] of the source receives the paths in traversal order. *)
Fixpoint buildFileEntry (dir : string) (item : Entry) : list string :=
  let fullPath := Path.join dir (entryName item) in
  match item with
  | EDir _ items => flat_map (buildFileEntry fullPath) items
  | EFile _ =>
      if negb (endsWith (toLowerCase fullPath) ".pak") then [fullPath] else []
  end.

Definition buildFileList (dir : string) (items : list Entry) : list string :=
  flat_map (buildFileEntry dir) items.

Definition maxSizeBytes : N := 2 * 1024 * 1024 * 1024.

Section Packer.

Variable w : World.
Variables dataSourceDirectory pakOutputPath : string.

(** The [for] loop of lines 134-142 over the files from [fileIdx] on.
    It hands back [pakSize], [filesToPack] and [fileIdx] as they stand
    when the loop is left. *)
Fixpoint fillPak (files : list string) (pakSize : N)
    (filesToPack : list string) (fileIdx : nat) : N * list string * nat :=
  match files with
  | [] => (pakSize, filesToPack, fileIdx)
  | file :: files' =>
      let fileSize := statSize w file in
      if (maxSizeBytes <? pakSize + fileSize)%N
      then (pakSize, filesToPack, fileIdx)
      else fillPak files' (pakSize + fileSize)%N
             (filesToPack ++ [Path.relative dataSourceDirectory file])
             (S fileIdx)
  end.

(** The name under which part [pakPartNo] is written (lines 126-129). *)
Definition pakPathOf (pakPartNo : nat) : string :=
  if (0 <? pakPartNo)%nat
  then replace pakOutputPath ".pak" ("-part" ++ ofNat pakPartNo ++ ".pak")
  else pakOutputPath.

(** The [while] loop of lines 125-162; one unit of fuel per turn. *)
Fixpoint packLoop (fuel : nat) (fileList : list string)
    (fileIdx pakPartNo : nat) : Run unit :=
  if (fileIdx <? List.length fileList)%nat then
    match fuel with
    | O => spin
    | S fuel' =>
        let pakPath := pakPathOf pakPartNo in
        let '(_, filesToPack, fileIdx') :=
          fillPak (skipn fileIdx fileList) 0%N [] fileIdx in
        let cmd := Zip pakPath filesToPack in
        emit (ConsoleLog ("Creating pak part " ++ ofNat pakPartNo ++ ": "
                          ++ render cmd)) ;;
        emit (ExecSync cmd (Some dataSourceDirectory)) ;;
        match zipTool w pakPath filesToPack with
        | ToolFailed => throw
        | ToolLeftNothing =>
            emit (ConsoleError ("ERROR: Failed to create '" ++ pakPath ++ "'.")) ;;
            processExit 1
        | ToolCreated =>
            if (fileIdx' <? List.length fileList)%nat then
              when (pakPartNo =? 0)%nat
                (emit (RenameSync pakPath
                         (replace pakOutputPath ".pak" "-part0.pak"))) ;;
              packLoop fuel' fileList fileIdx' (S pakPartNo)
            else
              packLoop fuel' fileList fileIdx' pakPartNo
        end
    end
  else ret tt.

(** Lines 114-162: what [compressToPak] does with the enumerated files. *)
Definition packFileList (fuel : nat) (fileList : list string) : Run unit :=
  when (List.length fileList =? 0)%nat
    (emit (ConsoleError ("ERROR: No files found in '" ++ dataSourceDirectory
                         ++ "' to pack.")) ;;
     processExit 1) ;;
  packLoop fuel fileList 0 0.

Definition compressToPak (fuel : nat) : Run unit :=
  packFileList fuel (buildFileList dataSourceDirectory (dataEntries w)).

End Packer.

(** ** Staging, bundling and the dispatch (lines 55-58, 75-92, 165-209) *)

Section Build.

Variable w : World.
Variable m : Manifest.

Definition sourceDirectory : string := Path.join (rootDirectory w) "src".
Definition manifestFile : string := Path.join sourceDirectory "mod.manifest".
Definition temporaryBuildDirectory : string :=
  Path.join (rootDirectory w) "temp_build".

Definition cleanBuildDirectory : Run unit :=
  emit (RmSync temporaryBuildDirectory true) ;;
  emit (MkdirSync temporaryBuildDirectory).

Definition prepareBuild : Run unit :=
  emit (CpSync sourceDirectory temporaryBuildDirectory).

(** [existsSync] of a direct child of the staged [Data] directory. *)
Definition existsInData (name : string) : bool :=
  existsb (fun e => String.eqb (entryName e) name) (dataEntries w).

Definition removeNonProductionFiles : Run unit :=
  let scriptsDirectory :=
    Path.join (Path.join temporaryBuildDirectory "Data") "Scripts" in
  when (existsInData "Scripts") (emit (RmSync scriptsDirectory true)) ;;
  let libsDirectory :=
    Path.join (Path.join temporaryBuildDirectory "Data") "Libs" in
  when (existsInData "Libs") (emit (RmSync libsDirectory true)).

Definition packData (fuel : nat) : Run unit :=
  let dataDirectory := Path.join temporaryBuildDirectory "Data" in
  let modPakFile := Path.join dataDirectory (text (modIdentifier m) ++ ".pak") in
  compressToPak w dataDirectory modPakFile fuel ;;
  removeNonProductionFiles.

Definition packMod (outputFileName : string) : Run string :=
  let finalZipPath :=
    Path.join (rootDirectory w)
      (outputFileName ++ "_" ++ text (modVersion m) ++ ".zip") in
  when (existsAtStart w finalZipPath) (emit (RmSync finalZipPath false)) ;;
  let sevenZipBinary :=
    Path.join (Path.join (Path.join (Path.join (rootDirectory w)
      "node_modules") "7z-bin") "linux") "7zzs" in
  let sevenZipCommand :=
    SevenZipAdd sevenZipBinary finalZipPath (temporaryBuildDirectory ++ "/*") in
  emit (ConsoleLog ("Zipping final mod: " ++ render sevenZipCommand)) ;;
  emit (ExecSync sevenZipCommand None) ;;
  (if sevenZipTool w sevenZipCommand then ret tt else throw) ;;
  emit (RmSync temporaryBuildDirectory true) ;;
  emit (ConsoleLog ("Built " ++ outputFileName ++ " mod: " ++ finalZipPath)) ;;
  emit (ConsoleLog ("ZIP_FILE:" ++ finalZipPath)) ;;
  ret finalZipPath.

(** Lines 197-209. *)
Definition dispatch (environment version : string) (fuel : nat) : Run unit :=
  if String.eqb environment "prod" then
    emit (ConsoleLog ("Building production version (" ++ version ++ ")...")) ;;
    cleanBuildDirectory ;;
    prepareBuild ;;
    packData fuel ;;
    packMod (text (modName m) ++ "_" ++ version) ;;
    ret tt
  else if String.eqb environment "dev" then
    emit (ConsoleLog ("Building development version (" ++ version ++ ")...")) ;;
    cleanBuildDirectory ;;
    prepareBuild ;;
    packData fuel ;;
    packMod (text (modName m) ++ "_" ++ version) ;;
    ret tt
  else ret tt.

End Build.

(** The build sequence in the words of the specification, to compare the
    two branches of [dispatch] with: stage, then pack, then bundle. *)
Definition stagePackBundle (w : World) (m : Manifest) (version : string)
    (fuel : nat) : Run unit :=
  cleanBuildDirectory w ;;
  prepareBuild w ;;
  packData w m fuel ;;
  packMod w m (text (modName m) ++ "_" ++ version) ;;
  ret tt.

(** ** The script from top to bottom *)

Definition main (w : World) (args : list string) (fuel : nat) : Run unit :=
  let environment := parseEnvironment w args in
  let version := parseVersion w args in
  let isHelpRequested := includes args "--help" in
  when isHelpRequested (emit (ConsoleLog usage) ;; processExit 0) ;;
  when (negb (includes validEnvironments environment))
    (emit (ConsoleError ("ERROR: Invalid --env value '" ++ environment
                         ++ "'. Must be one of: " ++ join ", " validEnvironments)) ;;
     processExit 1) ;;
  when (negb (includes validVersions version))
    (emit (ConsoleError ("ERROR: Invalid --version value '" ++ version
                         ++ "'. Must be one of: " ++ join ", " validVersions)) ;;
     processExit 1) ;;
  match manifest w with
  | None =>
      emit (ConsoleError "ERROR: mod.manifest not found in src!") ;;
      processExit 1
  | Some manifestContent =>
      let m := readManifest manifestContent in
      when (manifestIncomplete m)
        (emit (ConsoleError "ERROR: Missing required fields in mod.manifest.") ;;
         processExit 1) ;;
      dispatch w m environment version fuel
  end.

(** ** Observations on a trace *)

Definition zipCallOf (e : Event) : list (string * list string) :=
  match e with
  | ExecSync (Zip pakPath files) _ => [(pakPath, files)]
  | _ => []
  end.

(** The invocations of the compression tool, in order: the pak path and
    the files of each part. *)
Definition zipCalls (t : list Event) : list (string * list string) :=
  flat_map zipCallOf t.

(** All files handed to the compression tool, in order. *)
Definition zippedFiles (t : list Event) : list string :=
  concat (map snd (zipCalls t)).

Definition renameOf (e : Event) : list (string * string) :=
  match e with
  | RenameSync oldPath newPath => [(oldPath, newPath)]
  | _ => []
  end.

Definition renames (t : list Event) : list (string * string) :=
  flat_map renameOf t.

Definition archiveOf (e : Event) : list string :=
  match e with
  | ExecSync (SevenZipAdd _ archive _) _ => [archive]
  | _ => []
  end.

(** The archives the archival tool is asked to write, in order. *)
Definition archives (t : list Event) : list string :=
  flat_map archiveOf t.

(** Events that only write to the console. *)
Definition isConsole (e : Event) : bool :=
  match e with
  | ConsoleLog _ | ConsoleError _ => true
  | _ => false
  end.

(** Events of the compression tool and of any kind of file-system change. *)
Definition isExec (e : Event) : bool :=
  match e with
  | ExecSync _ _ => true
  | _ => false
  end.

Fixpoint sumSizes (w : World) (files : list string) : N :=
  match files with
  | [] => 0%N
  | f :: files' => (statSize w f + sumSizes w files')%N
  end.

(** How many files the [for] loop takes when it starts with [pakSize]. *)
Fixpoint fitCount (w : World) (files : list string) (pakSize : N) : nat :=
  match files with
  | [] => O
  | f :: files' =>
      if (maxSizeBytes <? pakSize + statSize w f)%N then O
      else S (fitCount w files' (pakSize + statSize w f)%N)
  end.

(** The files of the part that starts at index [fileIdx]. *)
Definition partAt (w : World) (fileList : list string) (fileIdx : nat)
    : list string :=
  firstn (fitCount w (skipn fileIdx fileList) 0) (skipn fileIdx fileList).

(** [".pak"] does not begin at any of the first [n] positions of [s]. *)
Fixpoint noPakBefore (n : nat) (s : string) : bool :=
  match n with
  | O => true
  | S n' =>
      negb (String.prefix ".pak" s)
      && match s with
         | EmptyString => true
         | String _ s' => noPakBefore n' s'
         end
  end.

(** ** Sample worlds *)

Definition GB : N := 1024 * 1024 * 1024.

Definition sampleManifest : string :=
  "<modid>no_combat_music</modid>" ++ newline ++
  "<version>1.2</version>" ++ newline ++
  "<name>No Combat Music</name>".

(** A checkout at [root] whose staged [Data] directory lists [entries],
    with both external tools working. *)
Definition sampleWorld (root : string) (content : option string)
    (entries : list Entry) (size : string -> N) : World :=
  {| envMODE := None;
     envVERSION := None;
     rootDirectory := root;
     manifest := content;
     dataEntries := entries;
     statSize := size;
     zipTool := fun _ _ => ToolCreated;
     sevenZipTool := fun _ => true;
     existsAtStart := fun _ => true |}.

(** A manifest without the [name] field. *)
Definition namelessManifest : string :=
  "<modid>no_combat_music</modid><version>1.2</version>".

Definition namelessWorld : World :=
  sampleWorld "/mod" (Some namelessManifest) [EFile "a.xml"] (fun _ => 1%N).

(** A small mod with a development-only directory. *)
Definition smallWorld : World :=
  sampleWorld "/mod" (Some sampleManifest)
    [EFile "a.xml"; EDir "Scripts" [EFile "s.lua"]] (fun _ => 5%N).

(** A checkout whose [Data] directory holds one file of 2 GB and one
    byte; any other file asked about has one byte. *)
Definition oversizedFile : string := "/mod/temp_build/Data/video.bin".

Definition oversizedWorld : World :=
  sampleWorld "/mod" (Some sampleManifest) [EFile "video.bin"]
    (fun file => if String.eqb file oversizedFile then (2 * GB + 1)%N else 1%N).

(** Three files of 1 GB each. *)
Definition gigabyteWorld : World :=
  sampleWorld "/mod" (Some sampleManifest)
    [EFile "a.bin"; EFile "b.bin"; EFile "c.bin"] (fun _ => GB).

(** A mod whose identifier contains [.pak], with two files of 2 GB each.
    All paths the packer computes for it lie in the one [Data]
    directory. *)
Definition dottedManifest : string :=
  "<modid>a.pak.b</modid>" ++ newline ++
  "<version>1.2</version>" ++ newline ++
  "<name>No Combat Music</name>".

Definition dottedModWorld : World :=
  sampleWorld "/mod" (Some dottedManifest)
    [EFile "a.bin"; EFile "b.bin"] (fun _ => (2 * GB)%N).

(** A [Data] directory in which only an archive of an earlier build and an
    empty directory are left. *)
Definition leftoverWorld : World :=
  sampleWorld "/mod" (Some sampleManifest)
    [EDir "Music" []; EFile "no_combat_music.PAK"] (fun _ => 7%N).

(** ** Notions used to state further properties *)

(** [pat] does not begin at any of the first [n] positions of [s]. *)
Fixpoint noOccurrenceBefore (pat : string) (n : nat) (s : string) : bool :=
  match n with
  | O => true
  | S n' =>
      negb (String.prefix pat s)
      && match s with
         | EmptyString => true
         | String _ s' => noOccurrenceBefore pat n' s'
         end
  end.

(** The character [c] occurs in [s]. *)
Fixpoint occursIn (c : ascii) (s : string) : bool :=
  match s with
  | EmptyString => false
  | String d s' => Ascii.eqb d c || occursIn c s'
  end.

(** No character of [s] is a line terminator. *)
Fixpoint lineFree (s : string) : bool :=
  match s with
  | EmptyString => true
  | String c s' => negb (isLineTerminator c) && lineFree s'
  end.

(** The plain files of a directory tree: [InTree dir items p] when [p] is
    the path of a file somewhere below [dir], whose listing is [items]. *)
Inductive InTree : string -> list Entry -> string -> Prop :=
| InTree_here (dir : string) (items : list Entry) (name : string) :
    In (EFile name) items ->
    InTree dir items (Path.join dir name)
| InTree_below (dir : string) (items : list Entry) (name : string)
    (sub : list Entry) (p : string) :
    In (EDir name sub) items ->
    InTree (Path.join dir name) sub p ->
    InTree dir items p.

(** Every part but the last is full: the first file of the part after it
    would have taken it beyond the maximum. *)
Fixpoint closedOnExcess (w : World) (parts : list (list string)) : Prop :=
  match parts with
  | [] => True
  | part :: rest =>
      match rest with
      | (f :: _) :: _ =>
          (maxSizeBytes < sumSizes w part + statSize w f)%N
      | _ => True
      end
      /\ closedOnExcess w rest
  end.

(** A run that is left through [process.exit] says why: the exit carries
    code 1 and comes right after a line on the error console. *)
Definition explained {A} (r : Run A) : Prop :=
  match outcome r with
  | Exited c => c = 1 /\ exists t msg, trace r = t ++ [ConsoleError msg]
  | _ => True
  end.

(** Events that create the staging directory or remove it with all it
    holds. *)
Definition stagingEvent (w : World) (e : Event) : bool :=
  match e with
  | MkdirSync path => String.eqb path (temporaryBuildDirectory w)
  | RmSync path true => String.eqb path (temporaryBuildDirectory w)
  | _ => false
  end.

(** An invocation of the compression tool runs in directory [dir]. *)
Definition zipRunsIn (dir : string) (e : Event) : bool :=
  match e with
  | ExecSync (Zip _ _) (Some cwd) => String.eqb cwd dir
  | ExecSync (Zip _ _) None => false
  | _ => true
  end.

(** A mod of four files of 900 MB each. *)
Definition fourFilesWorld : World :=
  sampleWorld "/mod" (Some sampleManifest)
    [EFile "a.bin"; EDir "Music" [EFile "b.ogg"; EFile "c.ogg"]; EFile "d.bin"]
    (fun _ => (900 * 1024 * 1024)%N).

Definition fourFiles : list string :=
  ["/mod/temp_build/Data/a.bin"; "/mod/temp_build/Data/Music/b.ogg";
   "/mod/temp_build/Data/Music/c.ogg"; "/mod/temp_build/Data/d.bin"].

(** A world in which the compression tool exits with an error. *)
Definition brokenZipWorld : World :=
  {| envMODE := Some "prod";
     envVERSION := None;
     rootDirectory := "/mod";
     manifest := Some sampleManifest;
     dataEntries := [EFile "a.xml"];
     statSize := fun _ => 1%N;
     zipTool := fun _ _ => ToolFailed;
     sevenZipTool := fun _ => true;
     existsAtStart := fun _ => false |}.

(** * Properties *)

(** ** The run monad *)

Lemma bind_ret_l {A B} (a : A) (k : A -> Run B) : bind (ret a) k = k a.
Proof. unfold bind, ret. destruct (k a). reflexivity. Qed.

Lemma bind_emit {B} (e : Event) (k : unit -> Run B) :
  bind (emit e) k = (e :: trace (k tt), outcome (k tt)).
Proof. unfold bind, emit, trace, outcome. destruct (k tt). reflexivity. Qed.

Lemma bind_when_false {B} (body : Run unit) (k : unit -> Run B) :
  bind (when false body) k = k tt.
Proof. unfold when. apply bind_ret_l. Qed.

Lemma trace_bind_returned {A B} (m : Run A) (k : A -> Run B) (a : A) :
  outcome m = Returned a ->
  trace (bind m k) = trace m ++ trace (k a)
  /\ outcome (bind m k) = outcome (k a).
Proof.
  destruct m as [t o]. simpl. intros ->. unfold bind.
  destruct (k a). split; reflexivity.
Qed.

Lemma bind_stopped {A B} (m : Run A) (k : A -> Run B) :
  (forall a, outcome m <> Returned a) ->
  trace (bind m k) = trace m
  /\ ((exists c, outcome m = Exited c /\ outcome (bind m k) = Exited c)
      \/ (outcome m = Threw /\ outcome (bind m k) = Threw)
      \/ (outcome m = Spinning /\ outcome (bind m k) = Spinning)).
Proof.
  destruct m as [t [a | c | | ]]; simpl; intros H.
  - destruct (H a). reflexivity.
  - split; [reflexivity | left; eauto].
  - split; [reflexivity | right; left; auto].
  - split; [reflexivity | right; right; auto].
Qed.

Lemma bind_returned_inv {A B} (m : Run A) (k : A -> Run B) (b : B) :
  outcome (bind m k) = Returned b ->
  exists a, outcome m = Returned a
            /\ outcome (k a) = Returned b
            /\ trace (bind m k) = trace m ++ trace (k a).
Proof.
  destruct m as [t [a | c | | ]]; simpl; try discriminate.
  unfold trace, outcome. destruct (k a) as [t' o'] eqn:E. simpl. intros ->.
  exists a. rewrite E. auto.
Qed.

(** ** Command line *)

Lemma main_unfold (w : World) (args : list string) (fuel : nat) :
  main w args fuel =
  if includes args "--help" then ([ConsoleLog usage], Exited 0)
  else if negb (includes validEnvironments (parseEnvironment w args)) then
    ([ConsoleError ("ERROR: Invalid --env value '" ++ parseEnvironment w args
                    ++ "'. Must be one of: " ++ join ", " validEnvironments)],
     Exited 1)
  else if negb (includes validVersions (parseVersion w args)) then
    ([ConsoleError ("ERROR: Invalid --version value '" ++ parseVersion w args
                    ++ "'. Must be one of: " ++ join ", " validVersions)],
     Exited 1)
  else match manifest w with
       | None => ([ConsoleError "ERROR: mod.manifest not found in src!"], Exited 1)
       | Some manifestContent =>
           if manifestIncomplete (readManifest manifestContent) then
             ([ConsoleError "ERROR: Missing required fields in mod.manifest."],
              Exited 1)
           else dispatch w (readManifest manifestContent)
                  (parseEnvironment w args) (parseVersion w args) fuel
       end.
Proof.
  unfold main.
  destruct (includes args "--help"); [reflexivity |].
  rewrite bind_when_false.
  destruct (negb (includes validEnvironments (parseEnvironment w args)));
    [reflexivity |].
  rewrite bind_when_false.
  destruct (negb (includes validVersions (parseVersion w args)));
    [reflexivity |].
  rewrite bind_when_false.
  destruct (manifest w) as [content |]; [| reflexivity].
  destruct (manifestIncomplete (readManifest content)); [reflexivity |].
  apply bind_when_false.
Qed.

Lemma includes_In (xs : list string) (x : string) :
  includes xs x = true <-> In x xs.
Proof.
  unfold includes. rewrite existsb_exists. split.
  - intros [y [Hy E]]. apply String.eqb_eq in E. subst. exact Hy.
  - intros H. exists x. split; [exact H | apply String.eqb_refl].
Qed.

(** C10: an argument list that contains [--help] makes the script print the
    usage text and exit with code 0, whatever the values of [--env] and
    [--version] are; the validation of those values is never reached. *)
Theorem help_exits_zero_before_validation
    (w : World) (args : list string) (fuel : nat) :
  In "--help" args ->
  main w args fuel = ([ConsoleLog usage], Exited 0).
Proof.
  intros H. rewrite main_unfold.
  apply includes_In in H. rewrite H. reflexivity.
Qed.

Lemma help_exits_zero_before_validation_witness :
  In "--help" ["--env=staging"; "--version=beta"; "--help"]
  /\ main (sampleWorld "/mod" None [] (fun _ => 0%N))
          ["--env=staging"; "--version=beta"; "--help"] 0
     = ([ConsoleLog usage], Exited 0)
  /\ outcome (main (sampleWorld "/mod" None [] (fun _ => 0%N))
                   ["--env=staging"; "--version=beta"] 0) = Exited 1.
Proof.
  assert (H : In "--help" ["--env=staging"; "--version=beta"; "--help"])
    by (simpl; auto).
  split; [exact H |].
  split; [| reflexivity].
  apply (help_exits_zero_before_validation
           (sampleWorld "/mod" None [] (fun _ => 0%N))
           ["--env=staging"; "--version=beta"; "--help"] 0 H).
Defined.

(** ** Manifest *)

Lemma lazyCapture_not_empty (close s : string) :
  lazyCapture close s <> Some EmptyString.
Proof.
  destruct s as [| c s']; simpl; [discriminate |].
  destruct (isLineTerminator c); [discriminate |].
  destruct (String.prefix close s'); [discriminate |].
  destruct (lazyCapture close s'); discriminate.
Qed.

Lemma execTag_eq (open close content : string) :
  execTag open close content =
  match (if String.prefix open content
         then lazyCapture close (dropChars (String.length open) content)
         else None) with
  | Some v => Some v
  | None =>
      match content with
      | EmptyString => None
      | String _ rest => execTag open close rest
      end
  end.
Proof. destruct content; reflexivity. Qed.

Lemma execTag_not_empty (open close content : string) :
  execTag open close content <> Some EmptyString.
Proof.
  induction content as [| c rest IH]; rewrite execTag_eq.
  - destruct (String.prefix open EmptyString); [| discriminate].
    destruct (lazyCapture close (dropChars (String.length open) EmptyString)) eqn:E;
      [| discriminate].
    intros H. inversion H. subst. eapply lazyCapture_not_empty. exact E.
  - destruct (String.prefix open (String c rest)); [| exact IH].
    destruct (lazyCapture close (dropChars (String.length open) (String c rest))) eqn:E;
      [| exact IH].
    intros H. inversion H. subst. eapply lazyCapture_not_empty. exact E.
Qed.

(** A field is falsy exactly when its pattern found nothing. *)
Lemma truthy_tagged (tag content : string) :
  truthy (tagged tag content) = false <-> tagged tag content = None.
Proof.
  unfold tagged.
  pose proof (execTag_not_empty ("<" ++ tag ++ ">") ("</" ++ tag ++ ">") content) as H.
  destruct (execTag _ _ content) as [[| c s] |]; simpl; split; intros E;
    try discriminate; try reflexivity.
  destruct H. reflexivity.
Qed.

Lemma manifestIncomplete_iff (content : string) :
  manifestIncomplete (readManifest content) = true <->
  tagged "modid" content = None \/ tagged "version" content = None
  \/ tagged "name" content = None.
Proof.
  unfold manifestIncomplete, readManifest. simpl.
  rewrite !orb_true_iff, !negb_true_iff, !truthy_tagged. tauto.
Qed.

(** Goals about a run that is left through one of the early exits. *)
Ltac early_exit :=
  repeat split; intros; try reflexivity; try discriminate.

(** C7: when one of the three fields of the manifest yields no content, the
    run changes nothing on disk: its events are console output only, and it
    ends in an exit.  Once the flags have passed their checks the exit code
    is 1 and the one message printed is the same whichever field is
    missing. *)
Theorem incomplete_manifest_fatal_before_staging
    (w : World) (args : list string) (fuel : nat) (content : string) :
  manifest w = Some content ->
  tagged "modid" content = None \/ tagged "version" content = None
  \/ tagged "name" content = None ->
  forallb isConsole (trace (main w args fuel)) = true
  /\ outcome (main w args fuel)
     = Exited (if includes args "--help" then 0 else 1)
  /\ (includes args "--help" = false ->
      includes validEnvironments (parseEnvironment w args) = true ->
      includes validVersions (parseVersion w args) = true ->
      main w args fuel
      = ([ConsoleError "ERROR: Missing required fields in mod.manifest."],
         Exited 1)).
Proof.
  intros Hm Hmiss. apply manifestIncomplete_iff in Hmiss.
  rewrite main_unfold, Hm, Hmiss.
  destruct (includes args "--help"); [early_exit |].
  destruct (includes validEnvironments (parseEnvironment w args));
    cbn [negb]; [| early_exit].
  destruct (includes validVersions (parseVersion w args));
    cbn [negb]; early_exit.
Qed.

Lemma incomplete_manifest_fatal_before_staging_witness :
  tagged "name" namelessManifest = None
  /\ forallb isConsole (trace (main namelessWorld ["--env=prod"] 4)) = true
  /\ outcome (main namelessWorld ["--env=prod"] 4) = Exited 1
  /\ main namelessWorld ["--env=prod"] 4
     = ([ConsoleError "ERROR: Missing required fields in mod.manifest."],
        Exited 1).
Proof.
  split; [reflexivity |].
  destruct (@incomplete_manifest_fatal_before_staging namelessWorld
              ["--env=prod"] 4 namelessManifest eq_refl
              (or_intror (or_intror eq_refl))) as [H1 [H2 H3]].
  split; [exact H1 |]. split; [exact H2 |].
  apply H3; reflexivity.
Defined.

(** ** Environment dispatch *)

Lemma dispatch_prod_dev (w : World) (m : Manifest) (version : string)
    (fuel : nat) :
  exists steps o,
    dispatch w m "prod" version fuel
    = (ConsoleLog ("Building production version (" ++ version ++ ")...") :: steps, o)
    /\ dispatch w m "dev" version fuel
       = (ConsoleLog ("Building development version (" ++ version ++ ")...") :: steps, o).
Proof.
  unfold dispatch. simpl String.eqb. cbv iota.
  rewrite !bind_emit.
  eexists. eexists. split; reflexivity.
Qed.

Lemma find_skip {A} (f : A -> bool) (pre post : list A) (x : A) :
  f x = false -> find f (pre ++ x :: post) = find f (pre ++ post).
Proof.
  intros Hx. induction pre as [| a pre IH]; simpl.
  - rewrite Hx. reflexivity.
  - destruct (f a); [reflexivity | exact IH].
Qed.

Lemma find_first {A} (f : A -> bool) (pre post : list A) (x : A) :
  forallb (fun a => negb (f a)) pre = true -> f x = true ->
  find f (pre ++ x :: post) = Some x.
Proof.
  intros Hpre Hx. induction pre as [| a pre IH]; simpl in *.
  - rewrite Hx. reflexivity.
  - apply andb_true_iff in Hpre. destruct Hpre as [Ha Hpre].
    apply negb_true_iff in Ha. rewrite Ha. apply IH. exact Hpre.
Qed.

Lemma includes_skip (pre post : list string) (x y : string) :
  String.eqb y x = false ->
  includes (pre ++ x :: post) y = includes (pre ++ post) y.
Proof.
  intros Hx. unfold includes. rewrite !existsb_app. simpl. rewrite Hx.
  reflexivity.
Qed.

(** C9: the run under [--env=prod] and the run under [--env=dev], with the
    other arguments alike, end alike and perform the same steps in the same
    order with the same arguments: whenever their traces differ at all,
    they differ in the text of the first line logged and in nothing
    after it.  Both branches of the dispatch are that first line followed
    by the one sequence stage, pack, bundle. *)
Theorem prod_and_dev_same_build_sequence
    (w : World) (pre post : list string) (fuel : nat) :
  forallb (fun a => negb (startsWith a "--env=")) pre = true ->
  let prod := main w (pre ++ "--env=prod" :: post) fuel in
  let dev := main w (pre ++ "--env=dev" :: post) fuel in
  outcome prod = outcome dev
  /\ filter (fun e => negb (isConsole e)) (trace prod)
     = filter (fun e => negb (isConsole e)) (trace dev)
  /\ (trace prod = trace dev
      \/ exists version steps,
           trace prod
           = ConsoleLog ("Building production version (" ++ version ++ ")...") :: steps
           /\ trace dev
              = ConsoleLog ("Building development version (" ++ version ++ ")...") :: steps)
  /\ (forall m version,
        dispatch w m "prod" version fuel
        = (emit (ConsoleLog ("Building production version (" ++ version ++ ")...")) ;;
           stagePackBundle w m version fuel)
        /\ dispatch w m "dev" version fuel
           = (emit (ConsoleLog ("Building development version (" ++ version ++ ")...")) ;;
              stagePackBundle w m version fuel)).
Proof.
  intros Hpre prod dev. subst prod dev.
  enough (Hmain :
    outcome (main w (pre ++ "--env=prod" :: post) fuel)
    = outcome (main w (pre ++ "--env=dev" :: post) fuel)
    /\ filter (fun e => negb (isConsole e))
         (trace (main w (pre ++ "--env=prod" :: post) fuel))
       = filter (fun e => negb (isConsole e))
           (trace (main w (pre ++ "--env=dev" :: post) fuel))
    /\ (trace (main w (pre ++ "--env=prod" :: post) fuel)
        = trace (main w (pre ++ "--env=dev" :: post) fuel)
        \/ exists version steps,
             trace (main w (pre ++ "--env=prod" :: post) fuel)
             = ConsoleLog ("Building production version (" ++ version ++ ")...") :: steps
             /\ trace (main w (pre ++ "--env=dev" :: post) fuel)
                = ConsoleLog ("Building development version (" ++ version ++ ")...") :: steps)).
  { destruct Hmain as [H1 [H2 H3]].
    split; [exact H1 |]. split; [exact H2 |]. split; [exact H3 |].
    intros m version. split; reflexivity. }
  rewrite !main_unfold.
  rewrite (@includes_skip pre post "--env=prod" "--help" eq_refl).
  rewrite (@includes_skip pre post "--env=dev" "--help" eq_refl).
  destruct (includes (pre ++ post) "--help"); [auto |].
  assert (Ep : parseEnvironment w (pre ++ "--env=prod" :: post) = "prod").
  { unfold parseEnvironment, flagValue.
    rewrite (@find_first _ _ pre post "--env=prod" Hpre eq_refl).
    reflexivity. }
  assert (Ed : parseEnvironment w (pre ++ "--env=dev" :: post) = "dev").
  { unfold parseEnvironment, flagValue.
    rewrite (@find_first _ _ pre post "--env=dev" Hpre eq_refl).
    reflexivity. }
  assert (Ev : parseVersion w (pre ++ "--env=prod" :: post)
               = parseVersion w (pre ++ "--env=dev" :: post)).
  { unfold parseVersion, flagValue.
    rewrite (@find_skip _ (fun arg => startsWith arg "--version=") pre post
               "--env=prod" eq_refl).
    rewrite (@find_skip _ (fun arg => startsWith arg "--version=") pre post
               "--env=dev" eq_refl).
    reflexivity. }
  rewrite Ep, Ed, <- Ev.
  change (negb (includes validEnvironments "prod")) with false.
  change (negb (includes validEnvironments "dev")) with false.
  cbv iota.
  destruct (negb (includes validVersions
                    (parseVersion w (pre ++ "--env=prod" :: post)))); [auto |].
  destruct (manifest w) as [content |]; [| auto].
  destruct (manifestIncomplete (readManifest content)); [auto |].
  destruct (dispatch_prod_dev w (readManifest content)
              (parseVersion w (pre ++ "--env=prod" :: post)) fuel)
    as [steps [o [Hp Hd]]].
  rewrite Hp, Hd. simpl.
  split; [reflexivity |]. split; [reflexivity |].
  right. eauto.
Qed.

Lemma prod_and_dev_same_build_sequence_witness :
  outcome (main smallWorld ["--version=lorem-ipsum"; "--env=prod"] 3)
  = Returned tt
  /\ outcome (main smallWorld ["--version=lorem-ipsum"; "--env=prod"] 3)
     = outcome (main smallWorld ["--version=lorem-ipsum"; "--env=dev"] 3)
  /\ filter (fun e => negb (isConsole e))
        (trace (main smallWorld ["--version=lorem-ipsum"; "--env=prod"] 3))
     = filter (fun e => negb (isConsole e))
         (trace (main smallWorld ["--version=lorem-ipsum"; "--env=dev"] 3)).
Proof.
  destruct (@prod_and_dev_same_build_sequence smallWorld
              ["--version=lorem-ipsum"] [] 3 eq_refl) as [H1 [H2 _]].
  split; [reflexivity |]. split; [exact H1 | exact H2].
Defined.

(** ** The inner loop of the packer *)

Section FillPak.

Variable w : World.
Variable dataSourceDirectory : string.

Let rel := Path.relative dataSourceDirectory.

Lemma fillPak_spec (files : list string) :
  forall (pakSize : N) (filesToPack : list string) (fileIdx : nat),
    fillPak w dataSourceDirectory files pakSize filesToPack fileIdx
    = ((pakSize + sumSizes w (firstn (fitCount w files pakSize) files))%N,
       filesToPack ++ map rel (firstn (fitCount w files pakSize) files),
       fileIdx + fitCount w files pakSize).
Proof.
  induction files as [| f files IH]; intros pakSize filesToPack fileIdx; simpl.
  - rewrite N.add_0_r, app_nil_r, Nat.add_0_r. reflexivity.
  - destruct (maxSizeBytes <? pakSize + statSize w f)%N; simpl.
    + rewrite N.add_0_r, app_nil_r, Nat.add_0_r. reflexivity.
    + rewrite IH. rewrite <- app_assoc. simpl.
      rewrite N.add_assoc, Nat.add_succ_r. reflexivity.
Qed.

Lemma fitCount_le (files : list string) :
  forall pakSize, fitCount w files pakSize <= List.length files.
Proof.
  induction files as [| f files IH]; intros pakSize; simpl.
  - lia.
  - destruct (maxSizeBytes <? pakSize + statSize w f)%N; [lia |].
    specialize (IH (pakSize + statSize w f)%N). lia.
Qed.

(** A part never grows beyond the maximum. *)
Lemma fitCount_within (files : list string) :
  forall pakSize,
    (pakSize <= maxSizeBytes)%N ->
    (pakSize + sumSizes w (firstn (fitCount w files pakSize) files)
     <= maxSizeBytes)%N.
Proof.
  induction files as [| f files IH]; intros pakSize Hle; simpl.
  - lia.
  - destruct (maxSizeBytes <? pakSize + statSize w f)%N eqn:E; simpl.
    + lia.
    + apply N.ltb_ge in E. specialize (IH _ E). lia.
Qed.

(** The loop is left early only at a file whose size, added to the
    part, goes strictly beyond the maximum. *)
Lemma fitCount_break (files : list string) :
  forall pakSize,
    fitCount w files pakSize < List.length files ->
    exists f,
      nth_error files (fitCount w files pakSize) = Some f
      /\ (maxSizeBytes
          < pakSize + sumSizes w (firstn (fitCount w files pakSize) files)
            + statSize w f)%N.
Proof.
  induction files as [| f files IH]; intros pakSize Hlt; simpl in *.
  - lia.
  - destruct (maxSizeBytes <? pakSize + statSize w f)%N eqn:E; simpl in *.
    + exists f. apply N.ltb_lt in E. split; [reflexivity | lia].
    + destruct (IH (pakSize + statSize w f)%N) as [g [Hg Hbig]]; [lia |].
      exists g. split; [exact Hg | lia].
Qed.

(** The loop never gets past a file that is larger than the maximum. *)
Lemma fitCount_oversized (files : list string) :
  forall pakSize k f,
    nth_error files k = Some f ->
    (maxSizeBytes < statSize w f)%N ->
    fitCount w files pakSize <= k.
Proof.
  induction files as [| g files IH]; intros pakSize k f Hk Hbig; simpl.
  - lia.
  - destruct k as [| k]; simpl in Hk.
    + inversion Hk. subst g.
      assert (E : (maxSizeBytes <? pakSize + statSize w f)%N = true)
        by (apply N.ltb_lt; lia).
      rewrite E. lia.
    + destruct (maxSizeBytes <? pakSize + statSize w g)%N; [lia |].
      specialize (IH (pakSize + statSize w g)%N k f Hk Hbig). lia.
Qed.

(** A first file that fits on its own is always taken. *)
Lemma fitCount_pos (f : string) (files : list string) :
  (statSize w f <= maxSizeBytes)%N ->
  1 <= fitCount w (f :: files) 0.
Proof.
  intros Hle. cbn [fitCount].
  assert (E : (maxSizeBytes <? 0 + statSize w f)%N = false)
    by (apply N.ltb_ge; lia).
  rewrite E. lia.
Qed.

End FillPak.

(** ** One turn of the outer loop *)

Section PackLoop.

Variable w : World.
Variables dataSourceDirectory pakOutputPath : string.

Let rel := Path.relative dataSourceDirectory.

Lemma packLoop_done (fuel : nat) (fileList : list string)
    (fileIdx pakPartNo : nat) :
  List.length fileList <= fileIdx ->
  packLoop w dataSourceDirectory pakOutputPath fuel fileList fileIdx pakPartNo
  = ret tt.
Proof.
  intros H. apply Nat.ltb_ge in H.
  destruct fuel; simpl; rewrite H; reflexivity.
Qed.

Lemma packLoop_turn (fuel : nat) (fileList : list string)
    (fileIdx pakPartNo : nat) :
  fileIdx < List.length fileList ->
  let part := partAt w fileList fileIdx in
  let pakPath := pakPathOf pakOutputPath pakPartNo in
  let cmd := Zip pakPath (map rel part) in
  let log := ConsoleLog ("Creating pak part " ++ ofNat pakPartNo ++ ": "
                         ++ render cmd) in
  let exec := ExecSync cmd (Some dataSourceDirectory) in
  let fileIdx' := fileIdx + List.length part in
  let more := (fileIdx' <? List.length fileList)%nat in
  let next := packLoop w dataSourceDirectory pakOutputPath fuel fileList
                fileIdx' (if more then S pakPartNo else pakPartNo) in
  packLoop w dataSourceDirectory pakOutputPath (S fuel) fileList fileIdx
    pakPartNo
  = match zipTool w pakPath (map rel part) with
    | ToolFailed => ([log; exec], Threw)
    | ToolLeftNothing =>
        ([log; exec;
          ConsoleError ("ERROR: Failed to create '" ++ pakPath ++ "'.")],
         Exited 1)
    | ToolCreated =>
        (log :: exec
           :: (if more && (pakPartNo =? 0)%nat
               then [RenameSync pakPath
                       (replace pakOutputPath ".pak" "-part0.pak")]
               else [])
           ++ trace next,
         outcome next)
    end.
Proof.
  intros Hlt part pakPath cmd log exec fileIdx' more next.
  assert (Hlen : List.length part = fitCount w (skipn fileIdx fileList) 0).
  { unfold part, partAt. apply firstn_length_le. apply fitCount_le. }
  cbn [packLoop]. apply Nat.ltb_lt in Hlt. rewrite Hlt.
  rewrite fillPak_spec. cbn [app].
  fold rel. fold (partAt w fileList fileIdx). fold part.
  rewrite <- Hlen. fold fileIdx'. fold pakPath. fold cmd. fold log. fold exec.
  rewrite !bind_emit. fold more.
  destruct (zipTool w pakPath (map rel part)); try reflexivity.
  unfold next. destruct more; cbn [andb].
  - destruct (pakPartNo =? 0)%nat; unfold when.
    + rewrite bind_emit. reflexivity.
    + rewrite bind_ret_l.
      destruct (packLoop w dataSourceDirectory pakOutputPath fuel fileList
                  fileIdx' (S pakPartNo)); reflexivity.
  - destruct (packLoop w dataSourceDirectory pakOutputPath fuel fileList
                fileIdx' pakPartNo); reflexivity.
Qed.

End PackLoop.

(** ** What the outer loop hands to the compression tool *)

Lemma firstn_plus {A} (a b : nat) (l : list A) :
  firstn (a + b) l = firstn a l ++ firstn b (skipn a l).
Proof.
  revert l. induction a as [| a IH]; intros l; simpl.
  - reflexivity.
  - destruct l as [| x l]; simpl.
    + rewrite firstn_nil. reflexivity.
    + rewrite IH. reflexivity.
Qed.

Lemma zipCalls_turn (l : string) (pakPath : string) (files : list string)
    (cwd : option string) (b : bool) (x y : string) (t : list Event) :
  zipCalls (ConsoleLog l :: ExecSync (Zip pakPath files) cwd
              :: (if b then [RenameSync x y] else []) ++ t)
  = (pakPath, files) :: zipCalls t.
Proof. destruct b; reflexivity. Qed.

Lemma zippedFiles_turn (l : string) (pakPath : string) (files : list string)
    (cwd : option string) (b : bool) (x y : string) (t : list Event) :
  zippedFiles (ConsoleLog l :: ExecSync (Zip pakPath files) cwd
                 :: (if b then [RenameSync x y] else []) ++ t)
  = files ++ zippedFiles t.
Proof. unfold zippedFiles. rewrite zipCalls_turn. reflexivity. Qed.

Lemma partAt_length (w : World) (fileList : list string) (fileIdx : nat) :
  List.length (partAt w fileList fileIdx)
  = fitCount w (skipn fileIdx fileList) 0.
Proof. unfold partAt. apply firstn_length_le. apply fitCount_le. Qed.

Lemma partAt_fits_in_rest (w : World) (fileList : list string) (fileIdx : nat) :
  fileIdx + List.length (partAt w fileList fileIdx) <= 
  Nat.max fileIdx (List.length fileList).
Proof.
  rewrite partAt_length.
  pose proof (fitCount_le w (skipn fileIdx fileList) 0) as H.
  rewrite length_skipn in H. lia.
Qed.

Section Progress.

Variable w : World.
Variables dataSourceDirectory pakOutputPath : string.
Variable fileList : list string.

Let rel := Path.relative dataSourceDirectory.
Let loop := packLoop w dataSourceDirectory pakOutputPath.

(** The files handed to the tool are, in order, the files from
    [fileIdx] up to some index [n]; the loop returns only with [n] at
    the end of the list; and [n] never passes a file larger than the
    maximum. *)
Lemma packLoop_progress (fuel : nat) :
  forall fileIdx pakPartNo,
    fileIdx <= List.length fileList ->
    exists n,
      fileIdx <= n /\ n <= List.length fileList
      /\ zippedFiles (trace (loop fuel fileList fileIdx pakPartNo))
         = map rel (firstn (n - fileIdx) (skipn fileIdx fileList))
      /\ (outcome (loop fuel fileList fileIdx pakPartNo) = Returned tt ->
          n = List.length fileList)
      /\ (forall k f,
            nth_error fileList k = Some f ->
            (maxSizeBytes < statSize w f)%N ->
            fileIdx <= k -> n <= k).
Proof.
  induction fuel as [| fuel IH]; intros fileIdx pakPartNo Hle.
  - exists fileIdx. rewrite Nat.sub_diag. unfold loop. cbn [packLoop].
    destruct (fileIdx <? List.length fileList)%nat eqn:E.
    + repeat split; auto; try lia. discriminate.
    + apply Nat.ltb_ge in E. repeat split; auto; lia.
  - destruct (Nat.eq_dec fileIdx (List.length fileList)) as [Heq | Hne].
    + exists fileIdx. rewrite Nat.sub_diag. unfold loop.
      rewrite packLoop_done by lia.
      repeat split; auto; lia.
    + assert (Hlt : fileIdx < List.length fileList) by lia.
      pose proof (partAt_length w fileList fileIdx) as Hlen.
      pose proof (partAt_fits_in_rest w fileList fileIdx) as Hfit.
      assert (Hover : forall k f,
                 nth_error fileList k = Some f ->
                 (maxSizeBytes < statSize w f)%N ->
                 fileIdx <= k ->
                 fileIdx + List.length (partAt w fileList fileIdx) <= k).
      { intros k f Hk Hbig Hik. rewrite Hlen.
        assert (Hk' : nth_error (skipn fileIdx fileList) (k - fileIdx) = Some f).
        { rewrite nth_error_skipn. replace (fileIdx + (k - fileIdx)) with k by lia.
          exact Hk. }
        pose proof (fitCount_oversized w _ 0%N _ Hk' Hbig). lia. }
      assert (Hhere : map rel (partAt w fileList fileIdx)
                      = map rel (firstn (fileIdx + List.length (partAt w fileList fileIdx) - fileIdx)
                                   (skipn fileIdx fileList))).
      { replace (fileIdx + List.length (partAt w fileList fileIdx) - fileIdx)
          with (fitCount w (skipn fileIdx fileList) 0) by lia.
        reflexivity. }
      unfold loop. rewrite (packLoop_turn w dataSourceDirectory pakOutputPath
                              fuel fileList pakPartNo Hlt).
      fold rel.
      destruct (zipTool w (pakPathOf pakOutputPath pakPartNo)
                  (map rel (partAt w fileList fileIdx))).
      * exists (fileIdx + List.length (partAt w fileList fileIdx)).
        repeat split; try lia; try discriminate; try exact Hover.
        unfold zippedFiles. simpl. rewrite app_nil_r. exact Hhere.
      * exists (fileIdx + List.length (partAt w fileList fileIdx)).
        repeat split; try lia; try discriminate; try exact Hover.
        unfold zippedFiles. simpl. rewrite app_nil_r. exact Hhere.
      * set (fileIdx' := fileIdx + List.length (partAt w fileList fileIdx)) in *.
        set (partNo' := if (fileIdx' <? List.length fileList)%nat
                        then S pakPartNo else pakPartNo).
        destruct (IH fileIdx' partNo') as [n [H1 [H2 [H3 [H4 H5]]]]]; [lia |].
        fold loop. exists n. cbn [trace outcome fst snd].
        split; [lia |]. split; [exact H2 |]. split; [| split].
        -- rewrite zippedFiles_turn. rewrite H3.
           rewrite <- map_app. f_equal.
           replace (n - fileIdx)
             with (List.length (partAt w fileList fileIdx) + (n - fileIdx'))
             by lia.
           rewrite firstn_plus. rewrite skipn_skipn.
           replace (List.length (partAt w fileList fileIdx) + fileIdx)
             with fileIdx' by lia.
           f_equal. rewrite Hlen. reflexivity.
        -- exact H4.
        -- intros k f Hk Hbig Hik. apply (H5 k f Hk Hbig).
           apply (Hover k f Hk Hbig Hik).
Qed.

Lemma packFileList_nonempty (fuel : nat) :
  fileList <> [] ->
  packFileList w dataSourceDirectory pakOutputPath fuel fileList
  = loop fuel fileList 0 0.
Proof.
  intros Hne. unfold packFileList.
  destruct fileList as [| f fl]; [destruct Hne; reflexivity |].
  cbn [List.length Nat.eqb]. apply bind_when_false.
Qed.

(** Whatever the fuel and whatever the tools answer: with a file larger
    than the maximum at index [k], the packer does not return, and the
    tool receives files from before index [k] only. *)
Lemma packFileList_stalls (fuel : nat) (k : nat) (f : string) :
  nth_error fileList k = Some f ->
  (maxSizeBytes < statSize w f)%N ->
  exists n,
    n <= k
    /\ zippedFiles (trace (packFileList w dataSourceDirectory pakOutputPath
                             fuel fileList))
       = map rel (firstn n fileList)
    /\ outcome (packFileList w dataSourceDirectory pakOutputPath
                  fuel fileList) <> Returned tt.
Proof.
  intros Hk Hbig.
  assert (Hlt : k < List.length fileList)
    by (apply nth_error_Some; rewrite Hk; discriminate).
  rewrite packFileList_nonempty
    by (intros E; rewrite E in Hlt; simpl in Hlt; lia).
  destruct (packLoop_progress fuel 0 (Nat.le_0_l _))
    as [n [_ [_ [H3 [H4 H5]]]]].
  specialize (H5 k f Hk Hbig (Nat.le_0_l _)).
  exists n. split; [exact H5 |].
  split.
  - rewrite H3. rewrite Nat.sub_0_r. reflexivity.
  - intros Hret. apply H4 in Hret. lia.
Qed.

End Progress.

(** ** Lists in which every file fits on its own *)

Section Fits.

Variable w : World.
Variables dataSourceDirectory pakOutputPath : string.
Variable fileList : list string.

Hypothesis every_file_fits :
  forall f, In f fileList -> (statSize w f <= maxSizeBytes)%N.
Hypothesis tool_works :
  forall pakPath files, zipTool w pakPath files = ToolCreated.

Let rel := Path.relative dataSourceDirectory.
Let loop := packLoop w dataSourceDirectory pakOutputPath.

Lemma partAt_not_empty (fileIdx : nat) :
  fileIdx < List.length fileList ->
  1 <= List.length (partAt w fileList fileIdx).
Proof.
  intros Hlt. rewrite partAt_length.
  destruct (skipn fileIdx fileList) as [| f rest] eqn:E.
  - apply (f_equal (@List.length string)) in E.
    rewrite length_skipn in E. simpl in E. lia.
  - apply fitCount_pos. apply every_file_fits.
    rewrite <- (firstn_skipn fileIdx fileList). rewrite E.
    apply in_or_app. right. left. reflexivity.
Qed.

(** With enough fuel the loop returns, and the parts it hands to the
    tool cut the remaining files into consecutive non-empty groups, each
    within the maximum. *)
Lemma packLoop_fits (fuel : nat) :
  forall fileIdx pakPartNo,
    fileIdx <= List.length fileList ->
    List.length fileList - fileIdx <= fuel ->
    exists parts,
      concat parts = skipn fileIdx fileList
      /\ Forall (fun part => part <> []
                             /\ (sumSizes w part <= maxSizeBytes)%N) parts
      /\ map snd (zipCalls (trace (loop fuel fileList fileIdx pakPartNo)))
         = map (map rel) parts
      /\ outcome (loop fuel fileList fileIdx pakPartNo) = Returned tt.
Proof.
  induction fuel as [| fuel IH]; intros fileIdx pakPartNo Hle Hfuel.
  - exists []. unfold loop. rewrite packLoop_done by lia.
    rewrite skipn_all2 by lia. repeat split; constructor.
  - destruct (Nat.eq_dec fileIdx (List.length fileList)) as [Heq | Hne].
    + exists []. unfold loop. rewrite packLoop_done by lia.
      rewrite skipn_all2 by lia. repeat split; constructor.
    + assert (Hlt : fileIdx < List.length fileList) by lia.
      pose proof (partAt_not_empty Hlt) as Hpos.
      pose proof (partAt_fits_in_rest w fileList fileIdx) as Hrest.
      unfold loop.
      rewrite (packLoop_turn w dataSourceDirectory pakOutputPath
                 fuel fileList pakPartNo Hlt).
      rewrite tool_works. fold loop. fold rel.
      set (fileIdx' := fileIdx + List.length (partAt w fileList fileIdx)) in *.
      set (partNo' := if (fileIdx' <? List.length fileList)%nat
                      then S pakPartNo else pakPartNo).
      destruct (IH fileIdx' partNo') as [parts [H1 [H2 [H3 H4]]]]; try lia.
      exists (partAt w fileList fileIdx :: parts).
      cbn [trace outcome fst snd]. rewrite zipCalls_turn.
      split; [| split; [| split]].
      * cbn [concat]. rewrite H1. unfold fileIdx'.
        rewrite partAt_length, Nat.add_comm, <- skipn_skipn.
        unfold partAt. apply firstn_skipn.
      * constructor; [| exact H2]. split.
        -- intros E. rewrite E in Hpos. simpl in Hpos. lia.
        -- pose proof (@fitCount_within w (skipn fileIdx fileList) 0%N
                         (N.le_0_l _)) as Hw.
           unfold partAt. lia.
      * cbn [map snd]. rewrite H3. reflexivity.
      * exact H4.
Qed.

(** The whole list: every file in exactly one part, in order. *)
Lemma packFileList_fits (fuel : nat) :
  fileList <> [] ->
  List.length fileList <= fuel ->
  exists parts,
    concat parts = fileList
    /\ Forall (fun part => part <> []
                           /\ (sumSizes w part <= maxSizeBytes)%N) parts
    /\ map snd (zipCalls (trace (packFileList w dataSourceDirectory
                                   pakOutputPath fuel fileList)))
       = map (map rel) parts
    /\ outcome (packFileList w dataSourceDirectory pakOutputPath fuel
                  fileList) = Returned tt.
Proof.
  intros Hne Hfuel. rewrite packFileList_nonempty by exact Hne.
  destruct (@packLoop_fits fuel 0 0 (Nat.le_0_l _)) as [parts H]; [lia |].
  exists parts. exact H.
Qed.

End Fits.

(** ** Files larger than the maximum *)

(** C1 (the script departs from it): a file larger than the maximum is
    never emitted.  With such a file at index [k] the packer does not
    return, whatever the fuel and whatever the tool answers, and the tool
    receives files from before index [k] only. *)
Theorem oversized_file_stalls_the_packer
    (w : World) (dataSourceDirectory pakOutputPath : string) (fuel : nat)
    (fileList : list string) (k : nat) (f : string) :
  nth_error fileList k = Some f ->
  (maxSizeBytes < statSize w f)%N ->
  outcome (packFileList w dataSourceDirectory pakOutputPath fuel fileList)
  <> Returned tt
  /\ exists n,
       n <= k
       /\ zippedFiles (trace (packFileList w dataSourceDirectory
                                pakOutputPath fuel fileList))
          = map (Path.relative dataSourceDirectory) (firstn n fileList).
Proof.
  intros Hk Hbig.
  destruct (packFileList_stalls w dataSourceDirectory pakOutputPath fileList
              fuel k Hk Hbig) as [n [H1 [H2 H3]]].
  split; [exact H3 |]. exists n. split; [exact H1 | exact H2].
Qed.

(** C2 (the script departs from it): with a file larger than the maximum
    in the list, the parts handed to the tool never cover the list; fewer
    files are packed than were enumerated. *)
Theorem oversized_file_is_in_no_part
    (w : World) (dataSourceDirectory pakOutputPath : string) (fuel : nat)
    (fileList : list string) (k : nat) (f : string) :
  nth_error fileList k = Some f ->
  (maxSizeBytes < statSize w f)%N ->
  List.length (zippedFiles (trace (packFileList w dataSourceDirectory
                                     pakOutputPath fuel fileList)))
  < List.length fileList
  /\ zippedFiles (trace (packFileList w dataSourceDirectory pakOutputPath
                           fuel fileList))
     <> map (Path.relative dataSourceDirectory) fileList.
Proof.
  intros Hk Hbig.
  destruct (packFileList_stalls w dataSourceDirectory pakOutputPath fileList
              fuel k Hk Hbig) as [n [H1 [H2 _]]].
  assert (Hlt : k < List.length fileList)
    by (apply nth_error_Some; rewrite Hk; discriminate).
  assert (Hlen : List.length (zippedFiles (trace (packFileList w
                   dataSourceDirectory pakOutputPath fuel fileList)))
                 < List.length fileList).
  { rewrite H2, length_map, length_firstn. lia. }
  split; [exact Hlen |].
  intros E. rewrite E, length_map in Hlen. lia.
Qed.

Lemma oversized_file_stalls_the_packer_witness :
  outcome (packFileList oversizedWorld "/mod/temp_build/Data"
             "/mod/temp_build/Data/no_combat_music.pak" 6 [oversizedFile])
  <> Returned tt
  /\ exists n, n <= 0
       /\ zippedFiles (trace (packFileList oversizedWorld
                                "/mod/temp_build/Data"
                                "/mod/temp_build/Data/no_combat_music.pak" 6
                                [oversizedFile]))
          = map (Path.relative "/mod/temp_build/Data") (firstn n [oversizedFile]).
Proof.
  apply (@oversized_file_stalls_the_packer oversizedWorld
           "/mod/temp_build/Data" "/mod/temp_build/Data/no_combat_music.pak"
           6 [oversizedFile] 0 oversizedFile).
  - reflexivity.
  - reflexivity.
Defined.

Lemma oversized_file_is_in_no_part_witness :
  List.length
    (zippedFiles (trace (packFileList oversizedWorld "/mod/temp_build/Data"
                           "/mod/temp_build/Data/no_combat_music.pak" 6
                           ["/mod/temp_build/Data/a.xml"; oversizedFile])))
  < 2
  /\ zippedFiles (trace (packFileList oversizedWorld "/mod/temp_build/Data"
                           "/mod/temp_build/Data/no_combat_music.pak" 6
                           ["/mod/temp_build/Data/a.xml"; oversizedFile]))
     <> ["a.xml"; "video.bin"].
Proof.
  apply (@oversized_file_is_in_no_part oversizedWorld
           "/mod/temp_build/Data" "/mod/temp_build/Data/no_combat_music.pak"
           6 ["/mod/temp_build/Data/a.xml"; oversizedFile] 1 oversizedFile).
  - reflexivity.
  - reflexivity.
Defined.

(** What the script does with one file of 2 GB and one byte while the
    tool keeps answering: empty parts under ever new names, for as long
    as there is fuel. *)
Example oversized_file_spins :
  main oversizedWorld [] 3
  = ([ConsoleLog "Building development version (main)...";
      RmSync "/mod/temp_build" true;
      MkdirSync "/mod/temp_build";
      CpSync "/mod/src" "/mod/temp_build";
      ConsoleLog ("Creating pak part 0: "
                  ++ render (Zip "/mod/temp_build/Data/no_combat_music.pak" []));
      ExecSync (Zip "/mod/temp_build/Data/no_combat_music.pak" [])
        (Some "/mod/temp_build/Data");
      RenameSync "/mod/temp_build/Data/no_combat_music.pak"
        "/mod/temp_build/Data/no_combat_music-part0.pak";
      ConsoleLog ("Creating pak part 1: "
                  ++ render (Zip "/mod/temp_build/Data/no_combat_music-part1.pak" []));
      ExecSync (Zip "/mod/temp_build/Data/no_combat_music-part1.pak" [])
        (Some "/mod/temp_build/Data");
      ConsoleLog ("Creating pak part 2: "
                  ++ render (Zip "/mod/temp_build/Data/no_combat_music-part2.pak" []));
      ExecSync (Zip "/mod/temp_build/Data/no_combat_music-part2.pak" [])
        (Some "/mod/temp_build/Data")],
     Spinning).
Proof. reflexivity. Qed.

(** ** The boundary of a part *)

(** C3: three files of 1 GB each, with the maximum of 2 GB, make two
    parts: the first two files together, which reach the maximum exactly,
    and the third file alone under the [-part1] name. *)
Theorem three_gigabyte_files_make_two_parts
    (w : World) (dataSourceDirectory pakOutputPath : string)
    (f1 f2 f3 : string) (fuel : nat) :
  statSize w f1 = GB -> statSize w f2 = GB -> statSize w f3 = GB ->
  (forall pakPath files, zipTool w pakPath files = ToolCreated) ->
  2 <= fuel ->
  let r := packFileList w dataSourceDirectory pakOutputPath fuel [f1; f2; f3] in
  let rel := Path.relative dataSourceDirectory in
  outcome r = Returned tt
  /\ zipCalls (trace r)
     = [(pakOutputPath, [rel f1; rel f2]);
        (replace pakOutputPath ".pak" "-part1.pak", [rel f3])]
  /\ renames (trace r)
     = [(pakOutputPath, replace pakOutputPath ".pak" "-part0.pak")]
  /\ sumSizes w [f1; f2] = maxSizeBytes.
Proof.
  intros H1 H2 H3 Htool Hfuel r rel. subst r.
  destruct fuel as [| [| fuel]]; try lia.
  rewrite packFileList_nonempty by discriminate.
  assert (P0 : partAt w [f1; f2; f3] 0 = [f1; f2]).
  { unfold partAt. cbn [skipn fitCount]. rewrite H1, H2, H3. reflexivity. }
  assert (P2 : partAt w [f1; f2; f3] 2 = [f3]).
  { unfold partAt. cbn [skipn fitCount]. rewrite H3. reflexivity. }
  rewrite (@packLoop_turn w dataSourceDirectory pakOutputPath (S fuel)
             [f1; f2; f3] 0 0) by (simpl; lia).
  rewrite P0, Htool.
  change (0 + List.length [f1; f2]) with 2.
  change (2 <? List.length [f1; f2; f3])%nat with true.
  cbv iota.
  rewrite (@packLoop_turn w dataSourceDirectory pakOutputPath fuel
             [f1; f2; f3] 2 1) by (simpl; lia).
  rewrite P2, Htool.
  change (2 + List.length [f3]) with 3.
  change (3 <? List.length [f1; f2; f3])%nat with false.
  cbv iota.
  rewrite packLoop_done by (simpl; lia).
  cbn [trace outcome fst snd ret andb Nat.eqb app].
  split; [reflexivity |]. split; [reflexivity |]. split; [reflexivity |].
  cbn [sumSizes]. rewrite H1, H2. reflexivity.
Qed.

Lemma three_gigabyte_files_make_two_parts_witness :
  outcome (packFileList gigabyteWorld "/mod/temp_build/Data"
             "/mod/temp_build/Data/no_combat_music.pak" 2
             ["/mod/temp_build/Data/a.bin"; "/mod/temp_build/Data/b.bin";
              "/mod/temp_build/Data/c.bin"])
  = Returned tt
  /\ zipCalls (trace (packFileList gigabyteWorld "/mod/temp_build/Data"
                        "/mod/temp_build/Data/no_combat_music.pak" 2
                        ["/mod/temp_build/Data/a.bin";
                         "/mod/temp_build/Data/b.bin";
                         "/mod/temp_build/Data/c.bin"]))
     = [("/mod/temp_build/Data/no_combat_music.pak", ["a.bin"; "b.bin"]);
        ("/mod/temp_build/Data/no_combat_music-part1.pak", ["c.bin"])]
  /\ renames (trace (packFileList gigabyteWorld "/mod/temp_build/Data"
                       "/mod/temp_build/Data/no_combat_music.pak" 2
                       ["/mod/temp_build/Data/a.bin";
                        "/mod/temp_build/Data/b.bin";
                        "/mod/temp_build/Data/c.bin"]))
     = [("/mod/temp_build/Data/no_combat_music.pak",
         "/mod/temp_build/Data/no_combat_music-part0.pak")]
  /\ sumSizes gigabyteWorld
       ["/mod/temp_build/Data/a.bin"; "/mod/temp_build/Data/b.bin"]
     = maxSizeBytes.
Proof.
  apply (@three_gigabyte_files_make_two_parts gigabyteWorld
           "/mod/temp_build/Data" "/mod/temp_build/Data/no_combat_music.pak"
           "/mod/temp_build/Data/a.bin" "/mod/temp_build/Data/b.bin"
           "/mod/temp_build/Data/c.bin" 2).
  - reflexivity.
  - reflexivity.
  - reflexivity.
  - intros pakPath files. reflexivity.
  - lia.
Defined.

(** ** The names of the parts *)

Lemma renames_turn (l : string) (cmd : Command) (cwd : option string)
    (b : bool) (x y : string) (t : list Event) :
  renames (ConsoleLog l :: ExecSync cmd cwd
             :: (if b then [RenameSync x y] else []) ++ t)
  = (if b then [(x, y)] else []) ++ renames t.
Proof. destruct b; reflexivity. Qed.

Section Names.

Variable w : World.
Variables dataSourceDirectory pakOutputPath : string.
Variable fileList : list string.

Let loop := packLoop w dataSourceDirectory pakOutputPath.

(** A loop that returns with files still to pack has called the tool. *)
Lemma packLoop_returned_called (fuel fileIdx pakPartNo : nat) :
  fileIdx < List.length fileList ->
  outcome (loop fuel fileList fileIdx pakPartNo) = Returned tt ->
  1 <= List.length (zipCalls (trace (loop fuel fileList fileIdx pakPartNo))).
Proof.
  intros Hlt. unfold loop. destruct fuel as [| fuel].
  - cbn [packLoop]. apply Nat.ltb_lt in Hlt. rewrite Hlt. discriminate.
  - rewrite (packLoop_turn w dataSourceDirectory pakOutputPath fuel
               fileList pakPartNo Hlt).
    destruct (zipTool w _ _); try discriminate.
    intros _. cbn [trace fst]. rewrite zipCalls_turn. simpl. lia.
Qed.

(** The calls of the tool carry the names of consecutive part numbers;
    the only rename there can be is that of the plain path to its
    [-part0] form, and it is made exactly when a second part follows. *)
Lemma packLoop_names (fuel : nat) :
  forall fileIdx pakPartNo,
    map fst (zipCalls (trace (loop fuel fileList fileIdx pakPartNo)))
    = map (pakPathOf pakOutputPath)
        (seq pakPartNo
           (List.length (zipCalls (trace (loop fuel fileList fileIdx pakPartNo)))))
    /\ (renames (trace (loop fuel fileList fileIdx pakPartNo)) = []
        \/ (pakPartNo = 0
            /\ renames (trace (loop fuel fileList fileIdx pakPartNo))
               = [(pakOutputPath, replace pakOutputPath ".pak" "-part0.pak")]))
    /\ (2 <= List.length (zipCalls (trace (loop fuel fileList fileIdx pakPartNo))) ->
        pakPartNo = 0 ->
        renames (trace (loop fuel fileList fileIdx pakPartNo)) <> [])
    /\ (outcome (loop fuel fileList fileIdx pakPartNo) = Returned tt ->
        renames (trace (loop fuel fileList fileIdx pakPartNo)) <> [] ->
        2 <= List.length (zipCalls (trace (loop fuel fileList fileIdx pakPartNo)))).
Proof.
  induction fuel as [| fuel IH]; intros fileIdx pakPartNo.
  - unfold loop. cbn [packLoop].
    destruct (fileIdx <? List.length fileList)%nat; simpl;
      repeat split; auto; try lia; congruence.
  - destruct (Nat.lt_ge_cases fileIdx (List.length fileList)) as [Hlt | Hge].
    2:{ unfold loop. rewrite packLoop_done by exact Hge. simpl.
        repeat split; auto; try lia; congruence. }
    unfold loop.
    rewrite (packLoop_turn w dataSourceDirectory pakOutputPath fuel
               fileList pakPartNo Hlt).
    destruct (zipTool w _ _).
    + simpl. repeat split; auto; try lia; congruence.
    + simpl. repeat split; auto; try lia; congruence.
    + fold loop. cbn [trace outcome fst snd].
      rewrite zipCalls_turn, renames_turn.
      set (fileIdx' := fileIdx + List.length (partAt w fileList fileIdx)).
      destruct (fileIdx' <? List.length fileList)%nat eqn:More.
      * apply Nat.ltb_lt in More.
        destruct (IH fileIdx' (S pakPartNo)) as [N1 [N2 [_ _]]].
        assert (R : renames (trace (loop fuel fileList fileIdx' (S pakPartNo))) = []).
        { destruct N2 as [R | [R _]]; [exact R | discriminate]. }
        rewrite R, app_nil_r. cbn [List.length map fst seq andb].
        rewrite N1. split; [reflexivity |].
        split; [| split].
        -- destruct pakPartNo; cbn [Nat.eqb]; [right | left]; auto.
        -- intros _ ->. discriminate.
        -- intros Hret _.
           pose proof (packLoop_returned_called fuel (S pakPartNo) More Hret).
           lia.
      * apply Nat.ltb_ge in More.
        unfold loop. rewrite packLoop_done by exact More.
        cbn [andb app trace fst ret zipCalls flat_map renames List.length
             map seq].
        repeat split; auto; try lia; congruence.
Qed.

End Names.

(** ** String replacement at the extension *)

Lemma append_empty_r (s : string) : (s ++ EmptyString)%string = s.
Proof. induction s as [| c s IH]; simpl; [| rewrite IH]; reflexivity. Qed.

Lemma replace_eq (s pat rep : string) :
  replace s pat rep =
  if String.prefix pat s then (rep ++ dropChars (String.length pat) s)%string
  else match s with
       | EmptyString => EmptyString
       | String c s' => String c (replace s' pat rep)
       end.
Proof. destruct s; reflexivity. Qed.

(** When [.pak] occurs in a path only as its closing extension, the
    replacement puts the new ending in the place of that extension. *)
Lemma replace_at_extension (stem rep : string) :
  noPakBefore (String.length stem) (stem ++ ".pak") = true ->
  replace (stem ++ ".pak") ".pak" rep = (stem ++ rep)%string.
Proof.
  induction stem as [| c stem IH]; intros H.
  - rewrite replace_eq. simpl. apply append_empty_r.
  - rewrite replace_eq.
    cbn [String.length noPakBefore] in H.
    apply andb_true_iff in H. destruct H as [Hhere Hrest].
    apply negb_true_iff in Hhere. rewrite Hhere.
    cbn [append] in *. rewrite (IH Hrest). reflexivity.
Qed.

Lemma pakPathOf_at_extension (stem : string) (n : nat) :
  noPakBefore (String.length stem) (stem ++ ".pak") = true ->
  pakPathOf (stem ++ ".pak") (S n)
  = (stem ++ "-part" ++ ofNat (S n) ++ ".pak")%string.
Proof.
  intros H. unfold pakPathOf. cbn [Nat.ltb Nat.leb].
  apply replace_at_extension. exact H.
Qed.

(** C4 (the script departs from it): the suffix is put where [.pak] first
    occurs in the whole output path.  For the mod identifier [a.pak.b],
    with two parts to write, the first part [a.pak.b.pak] is renamed to
    [a-part0.pak.b.pak] and the second is written as [a-part1.pak.b.pak]:
    neither name carries its part suffix before the extension.  For an
    output path below a directory [/mods.pak] the two names the script
    computes lie in other directories and keep the plain file name. *)
Theorem part_suffix_replaces_first_pak_of_path :
  outcome (main dottedModWorld [] 2) = Returned tt
  /\ renames (trace (main dottedModWorld [] 2))
     = [("/mod/temp_build/Data/a.pak.b.pak",
         "/mod/temp_build/Data/a-part0.pak.b.pak")]
  /\ map fst (zipCalls (trace (main dottedModWorld [] 2)))
     = ["/mod/temp_build/Data/a.pak.b.pak";
        "/mod/temp_build/Data/a-part1.pak.b.pak"]
  /\ endsWith "/mod/temp_build/Data/a-part0.pak.b.pak" "-part0.pak" = false
  /\ endsWith "/mod/temp_build/Data/a-part1.pak.b.pak" "-part1.pak" = false
  /\ replace "/mods.pak/temp_build/Data/no_combat_music.pak" ".pak"
       "-part0.pak"
     = "/mods-part0.pak/temp_build/Data/no_combat_music.pak"
  /\ pakPathOf "/mods.pak/temp_build/Data/no_combat_music.pak" 1
     = "/mods-part1.pak/temp_build/Data/no_combat_music.pak".
Proof. repeat split; reflexivity. Qed.

(** ** Enumeration of the files to pack *)

Lemma Entry_nested_ind (P : Entry -> Prop) :
  (forall name, P (EFile name)) ->
  (forall name items, Forall P items -> P (EDir name items)) ->
  forall e, P e.
Proof.
  intros Hfile Hdir. fix IH 1. intros [name | name items].
  - apply Hfile.
  - apply Hdir. induction items as [| i items IHitems]; constructor.
    + apply IH.
    + exact IHitems.
Qed.

Lemma buildFileEntry_dir (dir name : string) (items : list Entry) :
  buildFileEntry dir (EDir name items)
  = buildFileList (Path.join dir name) items.
Proof. reflexivity. Qed.

Lemma buildFileEntry_file (dir name : string) :
  buildFileEntry dir (EFile name)
  = if negb (endsWith (toLowerCase (Path.join dir name)) ".pak")
    then [Path.join dir name] else [].
Proof. reflexivity. Qed.

Lemma buildFileEntry_no_pak (e : Entry) :
  forall dir p,
    In p (buildFileEntry dir e) -> endsWith (toLowerCase p) ".pak" = false.
Proof.
  induction e as [name | name items IH] using Entry_nested_ind; intros dir p Hin.
  - rewrite buildFileEntry_file in Hin.
    destruct (endsWith (toLowerCase (Path.join dir name)) ".pak") eqn:E;
      simpl in Hin.
    + destruct Hin.
    + destruct Hin as [<- | []]. exact E.
  - rewrite buildFileEntry_dir in Hin. unfold buildFileList in Hin.
    apply in_flat_map in Hin. destruct Hin as [i [Hi Hp]].
    rewrite Forall_forall in IH. apply (IH i Hi _ _ Hp).
Qed.

Lemma buildFileList_no_pak (dir : string) (items : list Entry) (p : string) :
  In p (buildFileList dir items) -> endsWith (toLowerCase p) ".pak" = false.
Proof.
  unfold buildFileList. intros Hin.
  apply in_flat_map in Hin. destruct Hin as [i [_ Hp]].
  apply (buildFileEntry_no_pak _ _ _ Hp).
Qed.

Lemma toLowerCase_app (a b : string) :
  toLowerCase (a ++ b) = (toLowerCase a ++ toLowerCase b)%string.
Proof. induction a as [| c a IH]; simpl; [| rewrite IH]; reflexivity. Qed.

Lemma length_app_string (a b : string) :
  String.length (a ++ b) = String.length a + String.length b.
Proof. induction a as [| c a IH]; simpl; [| rewrite IH]; reflexivity. Qed.

Lemma substring_whole (b : string) : substring 0 (String.length b) b = b.
Proof. induction b as [| c b IH]; simpl; [| rewrite IH]; reflexivity. Qed.

Lemma substring_after (a b : string) :
  substring (String.length a) (String.length b) (a ++ b) = b.
Proof. induction a as [| c a IH]; simpl; [apply substring_whole | exact IH]. Qed.

Lemma endsWith_app (a b : string) : endsWith (a ++ b) b = true.
Proof.
  unfold endsWith. rewrite length_app_string.
  replace (String.length a + String.length b - String.length b)
    with (String.length a) by lia.
  rewrite substring_after, String.eqb_refl.
  replace (String.length b <=? String.length a + String.length b)%nat
    with true by (symmetry; apply Nat.leb_le; lia).
  reflexivity.
Qed.

Lemma packFileList_zipped_from_list
    (w : World) (dataSourceDirectory pakOutputPath : string) (fuel : nat)
    (fileList : list string) (f : string) :
  In f (zippedFiles (trace (packFileList w dataSourceDirectory pakOutputPath
                              fuel fileList))) ->
  exists p, In p fileList /\ f = Path.relative dataSourceDirectory p.
Proof.
  destruct fileList as [| f0 fl] eqn:E.
  - simpl. intros [].
  - rewrite <- E. rewrite packFileList_nonempty by (rewrite E; discriminate).
    destruct (@packLoop_progress w dataSourceDirectory pakOutputPath fileList
                fuel 0 0 (Nat.le_0_l _)) as [n [_ [_ [H3 _]]]].
    rewrite H3. intros Hin. apply in_map_iff in Hin.
    destruct Hin as [p [Hp Hin]]. exists p. split; [| symmetry; exact Hp].
    cbn [skipn] in Hin.
    rewrite <- (firstn_skipn (n - 0) fileList). apply in_or_app. left.
    exact Hin.
Qed.

(** C8: no enumerated path ends in [.pak] in any mixture of upper and
    lower case, and every file that [compressToPak] hands to the
    compression tool is one of the enumerated paths, made relative: an
    archive left in the tree by an earlier build is not packed again. *)
Theorem enumeration_leaves_out_pak_files
    (w : World) (dataSourceDirectory pakOutputPath : string) (fuel : nat) :
  (forall p stem ext,
      In p (buildFileList dataSourceDirectory (dataEntries w)) ->
      p = (stem ++ ext)%string ->
      toLowerCase ext <> ".pak")
  /\ (forall f,
        In f (zippedFiles (trace (compressToPak w dataSourceDirectory
                                    pakOutputPath fuel))) ->
        exists p,
          In p (buildFileList dataSourceDirectory (dataEntries w))
          /\ endsWith (toLowerCase p) ".pak" = false
          /\ f = Path.relative dataSourceDirectory p).
Proof.
  split.
  - intros p stem ext Hin -> Hext.
    apply buildFileList_no_pak in Hin.
    rewrite toLowerCase_app, Hext, endsWith_app in Hin. discriminate.
  - intros f Hin. unfold compressToPak in Hin.
    apply packFileList_zipped_from_list in Hin.
    destruct Hin as [p [Hp Hf]]. exists p.
    split; [exact Hp |]. split; [| exact Hf].
    apply (buildFileList_no_pak _ _ _ Hp).
Qed.

Lemma enumeration_leaves_out_pak_files_witness :
  buildFileList "/mod/temp_build/Data"
    [EDir "Music" [EFile "calm.ogg"; EFile "old-part1.Pak"];
     EFile "no_combat_music.PAK"; EFile "mod.cfg"]
  = ["/mod/temp_build/Data/Music/calm.ogg"; "/mod/temp_build/Data/mod.cfg"]
  /\ toLowerCase ".ogg" <> ".pak".
Proof.
  split; [reflexivity |].
  apply (proj1 (enumeration_leaves_out_pak_files
                  (sampleWorld "/mod" None
                     [EDir "Music" [EFile "calm.ogg"; EFile "old-part1.Pak"];
                      EFile "no_combat_music.PAK"; EFile "mod.cfg"]
                     (fun _ => 1%N))
                  "/mod/temp_build/Data" "/mod/temp_build/Data/m.pak" 0)
               "/mod/temp_build/Data/Music/calm.ogg"
               "/mod/temp_build/Data/Music/calm" ".ogg").
  - simpl. auto.
  - reflexivity.
Defined.

(** ** An empty enumeration *)

(** C6: when the enumeration is empty, [compressToPak] prints its error
    and exits with code 1; no external tool has been invoked. *)
Theorem empty_enumeration_exits_before_any_tool
    (w : World) (dataSourceDirectory pakOutputPath : string) (fuel : nat) :
  buildFileList dataSourceDirectory (dataEntries w) = [] ->
  compressToPak w dataSourceDirectory pakOutputPath fuel
  = ([ConsoleError ("ERROR: No files found in '" ++ dataSourceDirectory
                    ++ "' to pack.")],
     Exited 1)
  /\ existsb isExec (trace (compressToPak w dataSourceDirectory
                              pakOutputPath fuel)) = false.
Proof.
  intros H. unfold compressToPak. rewrite H. split; reflexivity.
Qed.

Lemma empty_enumeration_exits_before_any_tool_witness :
  buildFileList "/mod/temp_build/Data" (dataEntries leftoverWorld) = []
  /\ compressToPak leftoverWorld "/mod/temp_build/Data"
       "/mod/temp_build/Data/no_combat_music.pak" 9
     = ([ConsoleError "ERROR: No files found in '/mod/temp_build/Data' to pack."],
        Exited 1)
  /\ outcome (main leftoverWorld [] 9) = Exited 1.
Proof.
  assert (H : buildFileList "/mod/temp_build/Data" (dataEntries leftoverWorld)
              = []) by reflexivity.
  split; [exact H |].
  split; [| reflexivity].
  apply (proj1 (@empty_enumeration_exits_before_any_tool leftoverWorld
                  "/mod/temp_build/Data"
                  "/mod/temp_build/Data/no_combat_music.pak" 9 H)).
Defined.

(** ** The final bundle *)

Lemma archives_app (a b : list Event) :
  archives (a ++ b) = archives a ++ archives b.
Proof. apply flat_map_app. Qed.

Lemma archives_packLoop (w : World) (dataSourceDirectory pakOutputPath : string)
    (fileList : list string) (fuel : nat) :
  forall fileIdx pakPartNo,
    archives (trace (packLoop w dataSourceDirectory pakOutputPath fuel
                       fileList fileIdx pakPartNo)) = [].
Proof.
  induction fuel as [| fuel IH]; intros fileIdx pakPartNo.
  - cbn [packLoop]. destruct (fileIdx <? List.length fileList)%nat; reflexivity.
  - destruct (Nat.lt_ge_cases fileIdx (List.length fileList)) as [Hlt | Hge].
    + rewrite (packLoop_turn w dataSourceDirectory pakOutputPath fuel
                 fileList pakPartNo Hlt).
      destruct (zipTool w _ _); try reflexivity.
      cbn [trace fst]. 
      change (?l :: ?e :: ?r ++ ?t) with ([l; e] ++ r ++ t).
      rewrite !archives_app, IH.
      destruct (_ && _); reflexivity.
    + rewrite packLoop_done by exact Hge. reflexivity.
Qed.

Lemma archives_compressToPak (w : World)
    (dataSourceDirectory pakOutputPath : string) (fuel : nat) :
  archives (trace (compressToPak w dataSourceDirectory pakOutputPath fuel)) = [].
Proof.
  unfold compressToPak, packFileList.
  destruct (buildFileList dataSourceDirectory (dataEntries w)) as [| f fl].
  - reflexivity.
  - cbn [List.length Nat.eqb]. rewrite bind_when_false.
    apply archives_packLoop.
Qed.

Lemma removeNonProductionFiles_quiet (w : World) :
  archives (trace (removeNonProductionFiles w)) = []
  /\ outcome (removeNonProductionFiles w) = Returned tt.
Proof.
  unfold removeNonProductionFiles.
  destruct (existsInData w "Scripts"); destruct (existsInData w "Libs");
    split; reflexivity.
Qed.

Lemma archives_packData (w : World) (m : Manifest) (fuel : nat) :
  archives (trace (packData w m fuel)) = [].
Proof.
  unfold packData.
  set (c := compressToPak w _ _ fuel).
  pose proof (archives_compressToPak w
                (Path.join (temporaryBuildDirectory w) "Data")
                (Path.join (Path.join (temporaryBuildDirectory w) "Data")
                   (text (modIdentifier m) ++ ".pak")) fuel) as Hc.
  fold c in Hc.
  destruct (removeNonProductionFiles_quiet w) as [Hr _].
  destruct c as [t [[] | code | | ]]; cbn [trace fst] in Hc.
  - unfold bind. destruct (removeNonProductionFiles w) as [t' o'].
    cbn [trace fst] in *. rewrite archives_app, Hc, Hr. reflexivity.
  - exact Hc.
  - exact Hc.
  - exact Hc.
Qed.

(** The path under which [packMod] writes the bundle. *)
Lemma packMod_returned (w : World) (m : Manifest) (outputFileName : string)
    (p : string) :
  outcome (packMod w m outputFileName) = Returned p ->
  let finalZipPath :=
    Path.join (rootDirectory w)
      (outputFileName ++ "_" ++ text (modVersion m) ++ ".zip") in
  p = finalZipPath
  /\ exists tail,
       trace (packMod w m outputFileName)
       = (if existsAtStart w finalZipPath
          then [RmSync finalZipPath false] else []) ++ tail
       /\ archives tail = [finalZipPath].
Proof.
  unfold packMod.
  set (finalZipPath := Path.join (rootDirectory w)
                         (outputFileName ++ "_" ++ text (modVersion m) ++ ".zip")).
  set (cmd := SevenZipAdd _ finalZipPath _).
  intros H.
  destruct (existsAtStart w finalZipPath); destruct (sevenZipTool w cmd);
    try discriminate H; inversion H; split; try reflexivity;
    eexists; split; reflexivity.
Qed.

Lemma includes_validEnvironments (environment : string) :
  includes validEnvironments environment = true ->
  environment = "prod" \/ environment = "dev".
Proof.
  intros H. apply includes_In in H. simpl in H.
  destruct H as [H | [H | []]]; auto.
Qed.

(** A build that returns: the steps before the bundler ask for no
    archive, and the bundler's own events follow them. *)
Lemma dispatch_returned (w : World) (m : Manifest)
    (environment version : string) (fuel : nat) :
  environment = "prod" \/ environment = "dev" ->
  outcome (dispatch w m environment version fuel) = Returned tt ->
  exists before p,
    trace (dispatch w m environment version fuel)
    = before ++ trace (packMod w m (text (modName m) ++ "_" ++ version))
    /\ archives before = []
    /\ outcome (packMod w m (text (modName m) ++ "_" ++ version)) = Returned p.
Proof.
  intros Henv.
  assert (Hshape : exists banner,
             dispatch w m environment version fuel
             = (emit (ConsoleLog banner) ;;
                cleanBuildDirectory w ;;
                prepareBuild w ;;
                packData w m fuel ;;
                packMod w m (text (modName m) ++ "_" ++ version) ;;
                ret tt)).
  { destruct Henv as [-> | ->]; eexists; reflexivity. }
  destruct Hshape as [banner ->].
  rewrite bind_emit. cbn [trace outcome fst snd].
  intros H.
  apply bind_returned_inv in H. destruct H as [[] [_ [H T1]]].
  apply bind_returned_inv in H. destruct H as [[] [_ [H T2]]].
  apply bind_returned_inv in H. destruct H as [[] [_ [H T3]]].
  apply bind_returned_inv in H. destruct H as [p [Hp [_ T4]]].
  exists (ConsoleLog banner
            :: trace (cleanBuildDirectory w) ++ trace (prepareBuild w)
            ++ trace (packData w m fuel)), p.
  split; [| split].
  - rewrite T1, T2, T3, T4. cbn [ret trace fst]. rewrite app_nil_r.
    cbn [app]. rewrite <- !app_assoc. reflexivity.
  - change (ConsoleLog banner :: ?t) with ([ConsoleLog banner] ++ t).
    rewrite !archives_app, archives_packData. reflexivity.
  - exact Hp.
Qed.

Lemma append_assoc_string (a b c : string) :
  ((a ++ b) ++ c)%string = (a ++ b ++ c)%string.
Proof. induction a as [| x a IH]; simpl; [| rewrite IH]; reflexivity. Qed.

(** C5 as the script has it: a build that returns asks the archival tool
    for exactly one archive, at the project root, named by the name of the
    manifest, the value of [--version] and the version of the manifest;
    a file of that name present at the start is removed, and only after
    that is the tool invoked. *)
Theorem bundle_named_by_name_variant_and_version
    (w : World) (args : list string) (fuel : nat) (content : string) :
  manifest w = Some content ->
  outcome (main w args fuel) = Returned tt ->
  archives (trace (main w args fuel))
  = [Path.join (rootDirectory w)
       (text (tagged "name" content) ++ "_" ++ parseVersion w args ++ "_"
        ++ text (tagged "version" content) ++ ".zip")]
  /\ (existsAtStart w
        (Path.join (rootDirectory w)
           (text (tagged "name" content) ++ "_" ++ parseVersion w args ++ "_"
            ++ text (tagged "version" content) ++ ".zip")) = true ->
      exists before after,
        trace (main w args fuel)
        = before
          ++ RmSync (Path.join (rootDirectory w)
                       (text (tagged "name" content) ++ "_"
                        ++ parseVersion w args ++ "_"
                        ++ text (tagged "version" content) ++ ".zip")) false
          :: after
        /\ archives before = []
        /\ archives after
           = [Path.join (rootDirectory w)
                (text (tagged "name" content) ++ "_" ++ parseVersion w args
                 ++ "_" ++ text (tagged "version" content) ++ ".zip")]).
Proof.
  intros Hm. rewrite main_unfold, Hm.
  destruct (includes args "--help"); [discriminate |].
  destruct (includes validEnvironments (parseEnvironment w args)) eqn:Henv;
    cbn [negb]; [| discriminate].
  destruct (includes validVersions (parseVersion w args));
    cbn [negb]; [| discriminate].
  destruct (manifestIncomplete (readManifest content)); [discriminate |].
  apply includes_validEnvironments in Henv.
  intros Hret.
  destruct (dispatch_returned w (readManifest content) (parseVersion w args)
              fuel Henv Hret) as [before [p [Ht [Hb Hp]]]].
  apply packMod_returned in Hp. cbv zeta in Hp.
  destruct Hp as [_ [tail [Hpm Htail]]].
  change (modName (readManifest content)) with (tagged "name" content) in *.
  change (modVersion (readManifest content)) with (tagged "version" content) in *.
  rewrite !append_assoc_string in Hpm, Htail.
  rewrite Ht, Hpm.
  split.
  - rewrite !archives_app, Hb, Htail.
    destruct (existsAtStart w _); reflexivity.
  - intros Hex. rewrite Hex.
    exists before, tail. split; [reflexivity |]. split; [exact Hb | exact Htail].
Qed.

Lemma bundle_named_by_name_variant_and_version_witness :
  archives (trace (main smallWorld ["--version=lorem-ipsum"] 3))
  = ["/mod/No Combat Music_lorem-ipsum_1.2.zip"]
  /\ exists before after,
       trace (main smallWorld ["--version=lorem-ipsum"] 3)
       = before ++ RmSync "/mod/No Combat Music_lorem-ipsum_1.2.zip" false
           :: after
       /\ archives before = []
       /\ archives after = ["/mod/No Combat Music_lorem-ipsum_1.2.zip"].
Proof.
  destruct (@bundle_named_by_name_variant_and_version smallWorld
              ["--version=lorem-ipsum"] 3 sampleManifest eq_refl eq_refl)
    as [H1 H2].
  split; [exact H1 |].
  apply H2. reflexivity.
Defined.

(** The bundle is not named by the name and the version of the manifest
    alone, and not by the name and the value of [--version] alone. *)
Lemma bundle_not_named_name_version :
  ~ (forall (w : World) (args : list string) (fuel : nat) (content : string),
        manifest w = Some content ->
        outcome (main w args fuel) = Returned tt ->
        archives (trace (main w args fuel))
        = [Path.join (rootDirectory w)
             (text (tagged "name" content) ++ "_"
              ++ text (tagged "version" content) ++ ".zip")]
        \/ archives (trace (main w args fuel))
           = [Path.join (rootDirectory w)
                (text (tagged "name" content) ++ "_"
                 ++ parseVersion w args ++ ".zip")]).
Proof.
  intros H.
  destruct (H smallWorld [] 3 sampleManifest eq_refl eq_refl) as [E | E];
    vm_compute in E; discriminate E.
Qed.

(** ** Part names when [.pak] is the closing extension only *)

(** X3: for an output path [stem.pak] in which [.pak] occurs nowhere else, a run
    of the packer that returns names its parts as follows: a single part
    keeps the plain path and nothing is renamed; with more parts, the
    first is renamed to [stem-part0.pak] and part [n], for [n] from 1 on,
    is written as [stem-part<n>.pak]. *)
Lemma part_names_at_extension
    (w : World) (dataSourceDirectory stem : string) (fuel : nat)
    (fileList : list string) :
  noPakBefore (String.length stem) (stem ++ ".pak") = true ->
  fileList <> [] ->
  outcome (packFileList w dataSourceDirectory (stem ++ ".pak") fuel fileList)
  = Returned tt ->
  exists count,
    map fst (zipCalls (trace (packFileList w dataSourceDirectory
                                (stem ++ ".pak") fuel fileList)))
    = (stem ++ ".pak")%string
        :: map (fun n => (stem ++ "-part" ++ ofNat (S n) ++ ".pak")%string)
             (seq 0 count)
    /\ renames (trace (packFileList w dataSourceDirectory (stem ++ ".pak")
                         fuel fileList))
       = if (0 <? count)%nat
         then [((stem ++ ".pak")%string, (stem ++ "-part0.pak")%string)]
         else [].
Proof.
  intros Hstem Hne. rewrite packFileList_nonempty by exact Hne. intros Hret.
  destruct (packLoop_names w dataSourceDirectory (stem ++ ".pak") fileList
              fuel 0 0) as [N1 [N2 [N3 N4]]].
  assert (Hlt : 0 < List.length fileList)
    by (destruct fileList; [destruct Hne; reflexivity | simpl; lia]).
  pose proof (packLoop_returned_called w dataSourceDirectory (stem ++ ".pak")
                fileList fuel 0 Hlt Hret) as Hcalled.
  specialize (N4 Hret).
  set (t := trace (packLoop w dataSourceDirectory (stem ++ ".pak") fuel
                     fileList 0 0)) in *.
  destruct (List.length (zipCalls t)) as [| count] eqn:Hcount; [lia |].
  exists count. rewrite N1. cbn [seq map]. split.
  - f_equal. rewrite <- seq_shift, map_map.
    apply map_ext. intros n. apply pakPathOf_at_extension. exact Hstem.
  - rewrite (replace_at_extension stem "-part0.pak" Hstem) in N2.
    destruct count as [| count]; cbn [Nat.ltb Nat.leb].
    + destruct N2 as [R | [_ R]]; [exact R |].
      assert (Hr : renames t <> []) by (rewrite R; discriminate).
      specialize (N4 Hr). lia.
    + destruct N2 as [R | [_ R]]; [| exact R].
      assert (2 <= S (S count)) by lia.
      destruct (N3 H eq_refl R).
Qed.

(** * Further properties of the script *)

(** ** The plan of the packer on lists that fit *)

Lemma skipn_head {A} (l : list A) (j : nat) (x : A) :
  nth_error l j = Some x -> exists r, skipn j l = x :: r.
Proof.
  intros H. rewrite <- (Nat.add_0_r j), <- nth_error_skipn in H.
  destruct (skipn j l) as [| y r]; simpl in H; [discriminate |].
  inversion H. subst. exists r. reflexivity.
Qed.

Section Plan.

Variable w : World.
Variables dataSourceDirectory pakOutputPath : string.
Variable fileList : list string.

Hypothesis every_file_fits :
  forall f, In f fileList -> (statSize w f <= maxSizeBytes)%N.
Hypothesis tool_works :
  forall pakPath files, zipTool w pakPath files = ToolCreated.

Let rel := Path.relative dataSourceDirectory.
Let loop := packLoop w dataSourceDirectory pakOutputPath.

Lemma packLoop_plan (fuel : nat) :
  forall fileIdx pakPartNo,
    fileIdx <= List.length fileList ->
    List.length fileList - fileIdx <= fuel ->
    exists parts,
      concat parts = skipn fileIdx fileList
      /\ Forall (fun part => part <> []
                             /\ (sumSizes w part <= maxSizeBytes)%N) parts
      /\ closedOnExcess w parts
      /\ map snd (zipCalls (trace (loop fuel fileList fileIdx pakPartNo)))
         = map (map rel) parts
      /\ outcome (loop fuel fileList fileIdx pakPartNo) = Returned tt.
Proof.
  induction fuel as [| fuel IH]; intros fileIdx pakPartNo Hle Hfuel.
  - exists []. unfold loop. rewrite packLoop_done by lia.
    rewrite skipn_all2 by lia. repeat split; constructor.
  - destruct (Nat.eq_dec fileIdx (List.length fileList)) as [Heq | Hne].
    + exists []. unfold loop. rewrite packLoop_done by lia.
      rewrite skipn_all2 by lia. repeat split; constructor.
    + assert (Hlt : fileIdx < List.length fileList) by lia.
      pose proof (partAt_not_empty w fileList every_file_fits Hlt) as Hpos.
      pose proof (partAt_fits_in_rest w fileList fileIdx) as Hrest.
      pose proof (partAt_length w fileList fileIdx) as Hlen.
      unfold loop.
      rewrite (packLoop_turn w dataSourceDirectory pakOutputPath
                 fuel fileList pakPartNo Hlt).
      rewrite tool_works. fold loop. fold rel.
      set (fileIdx' := fileIdx + List.length (partAt w fileList fileIdx)) in *.
      set (partNo' := if (fileIdx' <? List.length fileList)%nat
                      then S pakPartNo else pakPartNo).
      destruct (IH fileIdx' partNo') as [parts [H1 [H2 [H3 [H4 H5]]]]]; try lia.
      assert (Hskip : skipn fileIdx' fileList
                      = skipn (fitCount w (skipn fileIdx fileList) 0)
                          (skipn fileIdx fileList)).
      { unfold fileIdx'. rewrite Hlen, Nat.add_comm, <- skipn_skipn.
        reflexivity. }
      exists (partAt w fileList fileIdx :: parts).
      cbn [trace outcome fst snd]. rewrite zipCalls_turn.
      split; [| split; [| split; [| split]]].
      * cbn [concat]. rewrite H1, Hskip. unfold partAt. apply firstn_skipn.
      * constructor; [| exact H2]. split.
        -- intros E. rewrite E in Hpos. simpl in Hpos. lia.
        -- pose proof (@fitCount_within w (skipn fileIdx fileList) 0%N
                         (N.le_0_l _)) as Hw.
           unfold partAt. lia.
      * cbn [closedOnExcess]. split; [| exact H3].
        destruct parts as [| [| f r] ps]; try exact I.
        cbn [concat app] in H1. rewrite Hskip in H1.
        assert (Hj : fitCount w (skipn fileIdx fileList) 0
                     < List.length (skipn fileIdx fileList)).
        { apply Nat.nle_gt. intros Hge.
          rewrite skipn_all2 in H1 by exact Hge. discriminate. }
        destruct (fitCount_break w (skipn fileIdx fileList) 0%N Hj)
          as [g [Hg Hbig]].
        destruct (skipn_head _ _ Hg) as [r' Hr'].
        rewrite Hr' in H1. inversion H1. subst g.
        unfold partAt. lia.
      * cbn [map snd]. rewrite H4. reflexivity.
      * exact H5.
Qed.

End Plan.

(** X1: when every file fits on its own and the compression tool works,
    the packer returns within as many turns as there are files; the parts
    it hands to the tool are non-empty groups of consecutive files, each
    within the maximum, that put together give the file list: every file
    is packed exactly once, in enumeration order. *)
Theorem fitting_files_are_partitioned
    (w : World) (dataSourceDirectory pakOutputPath : string)
    (fileList : list string) (fuel : nat) :
  (forall f, In f fileList -> (statSize w f <= maxSizeBytes)%N) ->
  (forall pakPath files, zipTool w pakPath files = ToolCreated) ->
  fileList <> [] ->
  List.length fileList <= fuel ->
  outcome (packFileList w dataSourceDirectory pakOutputPath fuel fileList)
  = Returned tt
  /\ zippedFiles (trace (packFileList w dataSourceDirectory pakOutputPath
                           fuel fileList))
     = map (Path.relative dataSourceDirectory) fileList
  /\ exists parts,
       concat parts = fileList
       /\ Forall (fun part => part <> []
                              /\ (sumSizes w part <= maxSizeBytes)%N) parts
       /\ map snd (zipCalls (trace (packFileList w dataSourceDirectory
                                      pakOutputPath fuel fileList)))
          = map (map (Path.relative dataSourceDirectory)) parts.
Proof.
  intros Hfit Htool Hne Hfuel.
  rewrite packFileList_nonempty by exact Hne.
  destruct (@packLoop_plan w dataSourceDirectory pakOutputPath fileList Hfit
              Htool fuel 0 0 (Nat.le_0_l _)) as [parts [H1 [H2 [_ [H4 H5]]]]];
    [lia |].
  cbn [skipn] in H1.
  split; [exact H5 |]. split.
  - unfold zippedFiles. rewrite H4, <- H1.
    rewrite concat_map. reflexivity.
  - exists parts. split; [exact H1 |]. split; [exact H2 | exact H4].
Qed.

Lemma fitting_files_are_partitioned_witness :
  outcome (packFileList fourFilesWorld "/mod/temp_build/Data"
             "/mod/temp_build/Data/no_combat_music.pak" 4 fourFiles)
  = Returned tt
  /\ zippedFiles (trace (packFileList fourFilesWorld "/mod/temp_build/Data"
                           "/mod/temp_build/Data/no_combat_music.pak" 4
                           fourFiles))
     = ["a.bin"; "Music/b.ogg"; "Music/c.ogg"; "d.bin"].
Proof.
  assert (Hfit : forall f, In f fourFiles ->
                           (statSize fourFilesWorld f <= maxSizeBytes)%N).
  { intros f _. vm_compute. discriminate. }
  assert (Htool : forall pakPath files,
             zipTool fourFilesWorld pakPath files = ToolCreated)
    by (intros; reflexivity).
  assert (Hne : fourFiles <> []) by discriminate.
  assert (Hfuel : List.length fourFiles <= 4) by (simpl; lia).
  destruct (@fitting_files_are_partitioned fourFilesWorld
              "/mod/temp_build/Data" "/mod/temp_build/Data/no_combat_music.pak"
              fourFiles 4 Hfit Htool Hne Hfuel) as [H1 [H2 _]].
  split; [exact H1 | exact H2].
Defined.

(** X2: the packing is greedy.  Under the conditions of X1, every part
    but the last was closed only because the first file of the part after
    it would have taken it strictly beyond the maximum. *)
Theorem parts_are_closed_only_when_full
    (w : World) (dataSourceDirectory pakOutputPath : string)
    (fileList : list string) (fuel : nat) :
  (forall f, In f fileList -> (statSize w f <= maxSizeBytes)%N) ->
  (forall pakPath files, zipTool w pakPath files = ToolCreated) ->
  fileList <> [] ->
  List.length fileList <= fuel ->
  exists parts,
    concat parts = fileList
    /\ map snd (zipCalls (trace (packFileList w dataSourceDirectory
                                   pakOutputPath fuel fileList)))
       = map (map (Path.relative dataSourceDirectory)) parts
    /\ closedOnExcess w parts.
Proof.
  intros Hfit Htool Hne Hfuel.
  rewrite packFileList_nonempty by exact Hne.
  destruct (@packLoop_plan w dataSourceDirectory pakOutputPath fileList Hfit
              Htool fuel 0 0 (Nat.le_0_l _)) as [parts [H1 [_ [H3 [H4 _]]]]];
    [lia |].
  exists parts. split; [exact H1 |]. split; [exact H4 | exact H3].
Qed.

Lemma parts_are_closed_only_when_full_witness :
  exists parts,
    concat parts = fourFiles
    /\ map snd (zipCalls (trace (packFileList fourFilesWorld
                                   "/mod/temp_build/Data"
                                   "/mod/temp_build/Data/no_combat_music.pak"
                                   4 fourFiles)))
       = map (map (Path.relative "/mod/temp_build/Data")) parts
    /\ closedOnExcess fourFilesWorld parts.
Proof.
  apply (@parts_are_closed_only_when_full fourFilesWorld
           "/mod/temp_build/Data" "/mod/temp_build/Data/no_combat_music.pak"
           fourFiles 4).
  - intros f _. vm_compute. discriminate.
  - intros; reflexivity.
  - discriminate.
  - simpl; lia.
Defined.

Lemma part_names_at_extension_witness :
  exists count,
    map fst (zipCalls (trace (packFileList fourFilesWorld
                                "/mod/temp_build/Data"
                                ("/mod/temp_build/Data/no_combat_music" ++ ".pak")
                                4 fourFiles)))
    = ("/mod/temp_build/Data/no_combat_music" ++ ".pak")%string
        :: map (fun n => ("/mod/temp_build/Data/no_combat_music" ++ "-part"
                          ++ ofNat (S n) ++ ".pak")%string)
             (seq 0 count)
    /\ renames (trace (packFileList fourFilesWorld "/mod/temp_build/Data"
                         ("/mod/temp_build/Data/no_combat_music" ++ ".pak")
                         4 fourFiles))
       = if (0 <? count)%nat
         then [(("/mod/temp_build/Data/no_combat_music" ++ ".pak")%string,
                ("/mod/temp_build/Data/no_combat_music" ++ "-part0.pak")%string)]
         else [].
Proof.
  apply (@part_names_at_extension fourFilesWorld "/mod/temp_build/Data"
           "/mod/temp_build/Data/no_combat_music" 4 fourFiles).
  - reflexivity.
  - discriminate.
  - reflexivity.
Defined.

(** ** Part names never collide *)

Lemma to_uint_not_nil (n : nat) : Nat.to_uint n <> Decimal.Nil.
Proof.
  intros H. pose proof (DecimalNat.Unsigned.of_to n) as E.
  rewrite H in E. simpl in E. subst n. discriminate H.
Qed.

Lemma ofNat_inj (n m : nat) : ofNat n = ofNat m -> n = m.
Proof.
  unfold ofNat. intros H.
  apply (f_equal NilZero.uint_of_string) in H.
  rewrite !NilZero.usu in H by apply to_uint_not_nil.
  inversion H. apply DecimalNat.Unsigned.to_uint_inj. assumption.
Qed.

Lemma append_cancel_l (a b c : string) :
  (a ++ b)%string = (a ++ c)%string -> b = c.
Proof.
  induction a as [| x a IH]; simpl; intros H; [exact H |].
  inversion H. auto.
Qed.

Lemma append_cancel_r (a b c : string) :
  (a ++ c)%string = (b ++ c)%string -> a = b.
Proof.
  revert b. induction a as [| x a IH]; intros [| y b] H.
  - reflexivity.
  - apply (f_equal String.length) in H. simpl in H.
    rewrite length_app_string in H. lia.
  - apply (f_equal String.length) in H. simpl in H.
    rewrite length_app_string in H. lia.
  - simpl in H. inversion H. f_equal. auto.
Qed.

Lemma NoDup_map_injective {A B} (f : A -> B) (l : list A) :
  (forall x y, f x = f y -> x = y) -> NoDup l -> NoDup (map f l).
Proof.
  intros Hinj Hl. induction Hl as [| x l Hx Hl IH]; simpl; constructor.
  - intros Hin. apply in_map_iff in Hin. destruct Hin as [y [E Hy]].
    apply Hinj in E. subst y. contradiction.
  - exact IH.
Qed.

(** X4: for an output path [stem.pak] in which [.pak] occurs nowhere
    else, the names under which a run writes its parts are pairwise
    distinct, and none of them is the [-part0] name that the first part is
    renamed to: no part is written over another one. *)
Theorem part_names_never_collide
    (w : World) (dataSourceDirectory stem : string) (fuel : nat)
    (fileList : list string) :
  noPakBefore (String.length stem) (stem ++ ".pak") = true ->
  NoDup ((stem ++ "-part0.pak")%string
           :: map fst (zipCalls (trace (packFileList w dataSourceDirectory
                                          (stem ++ ".pak") fuel fileList)))).
Proof.
  intros Hstem.
  destruct fileList as [| f0 fl] eqn:Efl.
  { simpl. constructor; [intros [] | constructor]. }
  rewrite <- Efl. rewrite packFileList_nonempty by (rewrite Efl; discriminate).
  destruct (packLoop_names w dataSourceDirectory (stem ++ ".pak") fileList
              fuel 0 0) as [N1 _].
  rewrite N1.
  set (g := fun n => (stem ++ "-part" ++ ofNat n ++ ".pak")%string).
  assert (Hg : forall x y, g x = g y -> x = y).
  { intros x y E. unfold g in E. apply append_cancel_l in E.
    inversion E as [E']. apply append_cancel_r in E'. apply ofNat_inj. exact E'. }
  assert (Hplain : forall n, (stem ++ ".pak")%string <> g n).
  { intros n E. unfold g in E. apply append_cancel_l in E. discriminate E. }
  destruct (List.length (zipCalls (trace (packLoop w dataSourceDirectory
              (stem ++ ".pak") fuel fileList 0 0)))) as [| count].
  { simpl. constructor; [intros [] | constructor]. }
  cbn [seq map].
  assert (Hrest : map (pakPathOf (stem ++ ".pak")) (seq 1 count)
                  = map g (seq 1 count)).
  { apply map_ext_in. intros n Hn. apply in_seq in Hn.
    destruct n as [| n]; [lia |].
    apply pakPathOf_at_extension. exact Hstem. }
  rewrite Hrest.
  change (pakPathOf (stem ++ ".pak") 0) with (stem ++ ".pak")%string.
  change (stem ++ "-part0.pak")%string with (g 0).
  assert (Hall : NoDup (map g (seq 0 (S count)))).
  { apply NoDup_map_injective; [exact Hg | apply seq_NoDup]. }
  cbn [seq map] in Hall. inversion Hall as [| x l Hx Hl]. subst.
  constructor.
  - intros [E | Hin]; [apply (Hplain 0 E) | contradiction].
  - constructor; [| exact Hl].
    intros Hin. apply in_map_iff in Hin. destruct Hin as [n [E _]].
    apply (Hplain n). symmetry. exact E.
Qed.

Lemma part_names_never_collide_witness :
  NoDup (("/mod/temp_build/Data/no_combat_music" ++ "-part0.pak")%string
           :: map fst (zipCalls (trace (packFileList fourFilesWorld
                                          "/mod/temp_build/Data"
                                          ("/mod/temp_build/Data/no_combat_music"
                                           ++ ".pak")
                                          4 fourFiles)))).
Proof.
  apply (@part_names_never_collide fourFilesWorld "/mod/temp_build/Data"
           "/mod/temp_build/Data/no_combat_music" 4 fourFiles).
  reflexivity.
Defined.

(** ** Reading the flags *)

Lemma split_plain (sep : ascii) (v : string) :
  occursIn sep v = false -> split sep v = [v].
Proof.
  induction v as [| c v IH]; intros H; [reflexivity |].
  cbn [occursIn] in H. apply orb_false_iff in H. destruct H as [Hc Hv].
  cbn [split]. rewrite Hc, (IH Hv). reflexivity.
Qed.

Lemma split_upto (sep : ascii) (a t : string) :
  occursIn sep a = false ->
  split sep (a ++ String sep t) = a :: split sep t.
Proof.
  induction a as [| c a IH]; intros H.
  - cbn [append split]. rewrite Ascii.eqb_refl. reflexivity.
  - cbn [occursIn] in H. apply orb_false_iff in H. destruct H as [Hc Ha].
    cbn [append split]. rewrite Hc, (IH Ha). reflexivity.
Qed.

Lemma split_first (sep : ascii) (v tail : string) :
  occursIn sep v = false ->
  tail = EmptyString \/ (exists t, tail = String sep t) ->
  exists rest, split sep (v ++ tail) = v :: rest.
Proof.
  intros Hv [-> | [t ->]].
  - rewrite append_empty_r, split_plain by exact Hv. eauto.
  - rewrite split_upto by exact Hv. eauto.
Qed.

(** The value of a flag [name=]: the text between the first and the second
    [=] of the first argument that begins with the flag. *)
Lemma flagValue_first (name v tail : string) (pre post : list string) :
  occursIn "=" name = false ->
  occursIn "=" v = false ->
  tail = EmptyString \/ (exists t, tail = String "=" t) ->
  forallb (fun a => negb (startsWith a (name ++ "="))) pre = true ->
  flagValue (name ++ "=") (pre ++ ((name ++ "=") ++ v ++ tail)%string :: post)
  = Some v.
Proof.
  intros Hname Hv Htail Hpre. unfold flagValue.
  assert (Hstart : startsWith ((name ++ "=") ++ v ++ tail) (name ++ "=") = true).
  { unfold startsWith. clear. induction name as [| c n IH]; simpl.
    - destruct (ascii_dec "=" "="); [| congruence].
      destruct (v ++ tail)%string; reflexivity.
    - destruct (ascii_dec c c); [exact IH | congruence]. }
  rewrite (@find_first _ (fun arg => startsWith arg (name ++ "=")) pre post
             _ Hpre Hstart).
  rewrite append_assoc_string. cbn [append].
  rewrite split_upto by exact Hname.
  destruct (@split_first "=" v tail Hv Htail) as [rest ->]. reflexivity.
Qed.

Lemma flagValue_absent (flag : string) (args : list string) :
  forallb (fun a => negb (startsWith a flag)) args = true ->
  flagValue flag args = None.
Proof.
  intros H. unfold flagValue.
  assert (E : find (fun arg => startsWith arg flag) args = None).
  { induction args as [| a args IH]; [reflexivity |].
    cbn [forallb] in H. apply andb_true_iff in H. destruct H as [Ha Hrest].
    apply negb_true_iff in Ha. cbn [find]. rewrite Ha. apply IH. exact Hrest. }
  rewrite E. reflexivity.
Qed.

(** X5: the first argument that begins with [--env=] (or [--version=])
    decides, whatever follows it and whatever [MODE] (or [VERSION]) holds:
    its value is the text after the flag up to a further [=], when that
    text is not empty. *)
Theorem first_flag_decides
    (w : World) (pre post : list string) (v tail : string) :
  v <> EmptyString ->
  occursIn "=" v = false ->
  tail = EmptyString \/ (exists t, tail = String "=" t) ->
  (forallb (fun a => negb (startsWith a "--env=")) pre = true ->
   parseEnvironment w (pre ++ ("--env=" ++ v ++ tail)%string :: post) = v)
  /\ (forallb (fun a => negb (startsWith a "--version=")) pre = true ->
      parseVersion w (pre ++ ("--version=" ++ v ++ tail)%string :: post) = v).
Proof.
  intros Hne Hv Htail.
  split; intros Hpre.
  - unfold parseEnvironment.
    assert (E : flagValue "--env=" (pre ++ ("--env=" ++ v ++ tail)%string :: post) = Some v)
      by exact (@flagValue_first "--env" v tail pre post eq_refl Hv Htail Hpre).
    rewrite E.
    destruct v; [destruct Hne |]; reflexivity.
  - unfold parseVersion.
    assert (E : flagValue "--version=" (pre ++ ("--version=" ++ v ++ tail)%string :: post) = Some v)
      by exact (@flagValue_first "--version" v tail pre post eq_refl Hv Htail Hpre).
    rewrite E.
    destruct v; [destruct Hne |]; reflexivity.
Qed.

Lemma first_flag_decides_witness :
  parseEnvironment brokenZipWorld
    ["--help"; "--env=dev=x"; "--env=prod"] = "dev"
  /\ parseVersion brokenZipWorld
       ["--help"; "--version=lorem-ipsum"; "--version=main"] = "lorem-ipsum".
Proof.
  split.
  - apply (proj1 (@first_flag_decides brokenZipWorld ["--help"] ["--env=prod"]
                    "dev" "=x" ltac:(discriminate) eq_refl
                    (or_intror (ex_intro _ "x" eq_refl)))).
    reflexivity.
  - apply (proj2 (@first_flag_decides brokenZipWorld ["--help"]
                    ["--version=main"] "lorem-ipsum" EmptyString
                    ltac:(discriminate) eq_refl (or_introl eq_refl))).
    reflexivity.
Defined.

(** X6: without a flag, and also when the first flag has an empty value
    (later flags are then not looked at), the environment is [MODE] when
    that is set and not empty and ["dev"] otherwise; the version is
    [VERSION] or ["main"] in the same way. *)
Theorem flag_defaults
    (w : World) (args : list string) :
  (forallb (fun a => negb (startsWith a "--env=")) args = true
   \/ (exists pre tail post,
         args = pre ++ ("--env=" ++ tail)%string :: post
         /\ forallb (fun a => negb (startsWith a "--env=")) pre = true
         /\ (tail = EmptyString \/ exists t, tail = String "=" t)) ->
   parseEnvironment w args = orElse (envMODE w) "dev")
  /\ (forallb (fun a => negb (startsWith a "--version=")) args = true
      \/ (exists pre tail post,
            args = pre ++ ("--version=" ++ tail)%string :: post
            /\ forallb (fun a => negb (startsWith a "--version=")) pre = true
            /\ (tail = EmptyString \/ exists t, tail = String "=" t)) ->
      parseVersion w args = orElse (envVERSION w) "main").
Proof.
  split.
  - intros [Habs | [pre [tail [post [-> [Hpre Htail]]]]]]; unfold parseEnvironment.
    + rewrite flagValue_absent by exact Habs.
      unfold orElseOpt, truthy, orElse. destruct (envMODE w) as [[| c s] |]; reflexivity.
    + assert (E : flagValue "--env=" (pre ++ ("--env=" ++ tail)%string :: post) = Some EmptyString)
      by exact (@flagValue_first "--env" EmptyString tail pre post eq_refl
                 eq_refl Htail Hpre).
    rewrite E.
      unfold orElseOpt, truthy, orElse. destruct (envMODE w) as [[| c s] |]; reflexivity.
  - intros [Habs | [pre [tail [post [-> [Hpre Htail]]]]]]; unfold parseVersion.
    + rewrite flagValue_absent by exact Habs.
      unfold orElseOpt, truthy, orElse. destruct (envVERSION w) as [[| c s] |]; reflexivity.
    + assert (E : flagValue "--version=" (pre ++ ("--version=" ++ tail)%string :: post) = Some EmptyString)
      by exact (@flagValue_first "--version" EmptyString tail pre post eq_refl
                 eq_refl Htail Hpre).
    rewrite E.
      unfold orElseOpt, truthy, orElse. destruct (envVERSION w) as [[| c s] |]; reflexivity.
Qed.

Lemma flag_defaults_witness :
  parseEnvironment smallWorld ["--env="; "--env=prod"] = "dev"
  /\ parseEnvironment brokenZipWorld [] = "prod"
  /\ parseVersion smallWorld ["--env=prod"] = "main".
Proof.
  split; [| split].
  - apply (proj1 (flag_defaults smallWorld ["--env="; "--env=prod"])).
    right. exists [], EmptyString, ["--env=prod"].
    split; [reflexivity |]. split; [reflexivity | left; reflexivity].
  - apply (proj1 (flag_defaults brokenZipWorld [])). left. reflexivity.
  - apply (proj2 (flag_defaults smallWorld ["--env=prod"])). left. reflexivity.
Defined.

(** ** How a run ends *)

Lemma bind_run {A B} (t : list Event) (a : A) (k : A -> Run B) :
  bind (t, Returned a) k = (t ++ trace (k a), outcome (k a)).
Proof. unfold bind, trace, outcome. destruct (k a). reflexivity. Qed.

Lemma explained_bind {A B} (m : Run A) (k : A -> Run B) :
  explained m -> (forall a, explained (k a)) -> explained (bind m k).
Proof.
  destruct m as [t [a | c | | ]]; intros Hm Hk.
  - rewrite bind_run. specialize (Hk a). unfold explained in *.
    cbn [outcome trace fst snd] in *.
    destruct (k a) as [t' [b | c | | ]]; cbn [fst snd] in *; auto.
    destruct Hk as [Hc [t0 [msg ->]]]. split; [exact Hc |].
    exists (t ++ t0), msg. apply app_assoc.
  - exact Hm.
  - exact I.
  - exact I.
Qed.

Lemma explained_emit (e : Event) : explained (emit e).
Proof. exact I. Qed.

Lemma explained_packLoop (w : World)
    (dataSourceDirectory pakOutputPath : string) (fileList : list string)
    (fuel : nat) :
  forall fileIdx pakPartNo,
    explained (packLoop w dataSourceDirectory pakOutputPath fuel fileList
                 fileIdx pakPartNo).
Proof.
  induction fuel as [| fuel IH]; intros fileIdx pakPartNo.
  - cbn [packLoop]. destruct (fileIdx <? List.length fileList)%nat; exact I.
  - destruct (Nat.lt_ge_cases fileIdx (List.length fileList)) as [Hlt | Hge].
    2:{ rewrite packLoop_done by exact Hge. exact I. }
    rewrite (packLoop_turn w dataSourceDirectory pakOutputPath fuel fileList
               pakPartNo Hlt).
    destruct (zipTool w _ _).
    + exact I.
    + unfold explained. cbn [outcome snd trace fst]. split; [reflexivity |].
      eexists [_; _], _. reflexivity.
    + set (next := packLoop w dataSourceDirectory pakOutputPath fuel fileList _ _).
      specialize (IH (fileIdx + List.length (partAt w fileList fileIdx))
                    (if (fileIdx + List.length (partAt w fileList fileIdx)
                         <? List.length fileList)%nat
                     then S pakPartNo else pakPartNo)).
      fold next in IH. unfold explained in *. cbn [outcome snd trace fst] in *.
      destruct (outcome next) as [[] | c | | ]; auto.
      destruct IH as [Hc [t0 [msg E]]]. split; [exact Hc |].
      eexists (_ :: _ :: _ ++ t0), msg. rewrite E.
      cbn [app]. rewrite app_assoc. reflexivity.
Qed.

Lemma explained_compressToPak (w : World)
    (dataSourceDirectory pakOutputPath : string) (fuel : nat) :
  explained (compressToPak w dataSourceDirectory pakOutputPath fuel).
Proof.
  unfold compressToPak, packFileList.
  destruct (buildFileList dataSourceDirectory (dataEntries w)) as [| f fl].
  - unfold explained. cbn. split; [reflexivity |]. eexists [], _. reflexivity.
  - cbn [List.length Nat.eqb]. rewrite bind_when_false.
    apply explained_packLoop.
Qed.

Lemma removeNonProductionFiles_run (w : World) :
  removeNonProductionFiles w
  = ((if existsInData w "Scripts"
      then [RmSync (Path.join (Path.join (temporaryBuildDirectory w) "Data")
                      "Scripts") true]
      else [])
     ++ (if existsInData w "Libs"
         then [RmSync (Path.join (Path.join (temporaryBuildDirectory w) "Data")
                         "Libs") true]
         else []),
     Returned tt).
Proof.
  unfold removeNonProductionFiles.
  destruct (existsInData w "Scripts"); destruct (existsInData w "Libs");
    reflexivity.
Qed.

Lemma packMod_run (w : World) (m : Manifest) (outputFileName : string) :
  packMod w m outputFileName
  = ((if existsAtStart w
            (Path.join (rootDirectory w)
               (outputFileName ++ "_" ++ text (modVersion m) ++ ".zip"))
      then [RmSync (Path.join (rootDirectory w)
                      (outputFileName ++ "_" ++ text (modVersion m) ++ ".zip"))
              false]
      else [])
     ++ ConsoleLog
          ("Zipping final mod: "
           ++ render (SevenZipAdd
                        (Path.join (Path.join (Path.join (Path.join
                           (rootDirectory w) "node_modules") "7z-bin") "linux")
                           "7zzs")
                        (Path.join (rootDirectory w)
                           (outputFileName ++ "_" ++ text (modVersion m)
                            ++ ".zip"))
                        (temporaryBuildDirectory w ++ "/*")))
     :: ExecSync
          (SevenZipAdd
             (Path.join (Path.join (Path.join (Path.join
                (rootDirectory w) "node_modules") "7z-bin") "linux") "7zzs")
             (Path.join (rootDirectory w)
                (outputFileName ++ "_" ++ text (modVersion m) ++ ".zip"))
             (temporaryBuildDirectory w ++ "/*"))
          None
     :: (if sevenZipTool w
              (SevenZipAdd
                 (Path.join (Path.join (Path.join (Path.join
                    (rootDirectory w) "node_modules") "7z-bin") "linux") "7zzs")
                 (Path.join (rootDirectory w)
                    (outputFileName ++ "_" ++ text (modVersion m) ++ ".zip"))
                 (temporaryBuildDirectory w ++ "/*"))
         then [RmSync (temporaryBuildDirectory w) true;
               ConsoleLog ("Built " ++ outputFileName ++ " mod: "
                           ++ Path.join (rootDirectory w)
                                (outputFileName ++ "_" ++ text (modVersion m)
                                 ++ ".zip"));
               ConsoleLog ("ZIP_FILE:"
                           ++ Path.join (rootDirectory w)
                                (outputFileName ++ "_" ++ text (modVersion m)
                                 ++ ".zip"))]
         else []),
     if sevenZipTool w
          (SevenZipAdd
             (Path.join (Path.join (Path.join (Path.join
                (rootDirectory w) "node_modules") "7z-bin") "linux") "7zzs")
             (Path.join (rootDirectory w)
                (outputFileName ++ "_" ++ text (modVersion m) ++ ".zip"))
             (temporaryBuildDirectory w ++ "/*"))
     then Returned (Path.join (rootDirectory w)
                      (outputFileName ++ "_" ++ text (modVersion m) ++ ".zip"))
     else Threw).
Proof.
  unfold packMod.
  destruct (existsAtStart w _); destruct (sevenZipTool w _); reflexivity.
Qed.

Lemma explained_packMod (w : World) (m : Manifest) (outputFileName : string) :
  explained (packMod w m outputFileName).
Proof.
  rewrite packMod_run. unfold explained. cbn [outcome snd trace fst].
  destruct (sevenZipTool w _); exact I.
Qed.

Lemma explained_stagePackBundle (w : World) (m : Manifest) (version : string)
    (fuel : nat) :
  explained (stagePackBundle w m version fuel).
Proof.
  unfold stagePackBundle.
  apply explained_bind; [exact I | intros _].
  apply explained_bind; [exact I | intros _].
  apply explained_bind.
  - unfold packData. apply explained_bind.
    + apply explained_compressToPak.
    + intros _. rewrite removeNonProductionFiles_run. exact I.
  - intros _. apply explained_bind; [apply explained_packMod | intros _; exact I].
Qed.

Lemma dispatch_banner (w : World) (m : Manifest) (environment version : string)
    (fuel : nat) :
  environment = "prod" \/ environment = "dev" ->
  exists banner,
    dispatch w m environment version fuel
    = (emit (ConsoleLog banner) ;; stagePackBundle w m version fuel).
Proof. intros [-> | ->]; eexists; reflexivity. Qed.

(** X8: a run that is left through [process.exit] carries code 0 or 1.
    Code 0 is the exit of [--help] after the usage text; code 1 always
    comes right after a line on the error console. *)
Theorem every_exit_is_announced
    (w : World) (args : list string) (fuel : nat) (c : nat) :
  outcome (main w args fuel) = Exited c ->
  (c = 0 /\ includes args "--help" = true
   /\ trace (main w args fuel) = [ConsoleLog usage])
  \/ (c = 1 /\ includes args "--help" = false
      /\ exists t msg, trace (main w args fuel) = t ++ [ConsoleError msg]).
Proof.
  rewrite main_unfold.
  destruct (includes args "--help").
  { intros H. inversion H. left. auto. }
  assert (Hexp : forall (r : Run unit),
             explained r ->
             outcome r = Exited c ->
             (c = 0 /\ false = true /\ trace r = [ConsoleLog usage])
             \/ (c = 1 /\ false = false
                 /\ exists t msg, trace r = t ++ [ConsoleError msg])).
  { intros r Hr Hc. unfold explained in Hr. rewrite Hc in Hr. right. tauto. }
  assert (Herr : forall msg, explained ([ConsoleError msg], @Exited unit 1)).
  { intros msg. split; [reflexivity |]. exists [], msg. reflexivity. }
  destruct (includes validEnvironments (parseEnvironment w args)) eqn:Henv;
    cbn [negb]; [| apply Hexp, Herr].
  destruct (includes validVersions (parseVersion w args));
    cbn [negb]; [| apply Hexp, Herr].
  destruct (manifest w) as [content |]; [| apply Hexp, Herr].
  destruct (manifestIncomplete (readManifest content)); [apply Hexp, Herr |].
  apply Hexp.
  destruct (dispatch_banner w (readManifest content) (parseVersion w args) fuel
              (includes_validEnvironments _ Henv)) as [banner ->].
  apply explained_bind; [exact I | intros _].
  apply explained_stagePackBundle.
Qed.

Lemma every_exit_is_announced_witness :
  exists t msg, trace (main leftoverWorld [] 3) = t ++ [ConsoleError msg].
Proof.
  destruct (@every_exit_is_announced leftoverWorld [] 3 1 eq_refl)
    as [[H _] | [_ [_ H]]].
  - discriminate H.
  - exact H.
Defined.

(** ** Effects come after validation *)

(** X7: a run that does anything besides writing to the console (removes,
    creates, copies or renames something, or invokes a tool) was not asked
    for help, has an environment and a version from the two fixed lists,
    and has found a manifest with all three fields. *)
Theorem effects_only_after_validation
    (w : World) (args : list string) (fuel : nat) :
  existsb (fun e => negb (isConsole e)) (trace (main w args fuel)) = true ->
  includes args "--help" = false
  /\ In (parseEnvironment w args) validEnvironments
  /\ In (parseVersion w args) validVersions
  /\ exists content,
       manifest w = Some content
       /\ tagged "modid" content <> None
       /\ tagged "version" content <> None
       /\ tagged "name" content <> None.
Proof.
  rewrite main_unfold.
  destruct (includes args "--help"); [discriminate |].
  destruct (includes validEnvironments (parseEnvironment w args)) eqn:Henv;
    cbn [negb]; [| discriminate].
  destruct (includes validVersions (parseVersion w args)) eqn:Hver;
    cbn [negb]; [| discriminate].
  destruct (manifest w) as [content |]; [| discriminate].
  destruct (manifestIncomplete (readManifest content)) eqn:Hinc; [discriminate |].
  intros _. split; [reflexivity |].
  split; [apply includes_In; exact Henv |].
  split; [apply includes_In; exact Hver |].
  exists content. split; [reflexivity |].
  assert (Hno : ~ (tagged "modid" content = None
                   \/ tagged "version" content = None
                   \/ tagged "name" content = None)).
  { intros H. apply manifestIncomplete_iff in H. congruence. }
  tauto.
Qed.

Lemma effects_only_after_validation_witness :
  includes ([] : list string) "--help" = false
  /\ In (parseEnvironment brokenZipWorld []) validEnvironments
  /\ In (parseVersion brokenZipWorld []) validVersions
  /\ exists content,
       manifest brokenZipWorld = Some content
       /\ tagged "modid" content <> None
       /\ tagged "version" content <> None
       /\ tagged "name" content <> None.
Proof.
  apply (effects_only_after_validation brokenZipWorld [] 3).
  reflexivity.
Defined.

(** ** The staging directory during a build *)

Lemma bind_stopped_same {A} (m : Run A) (k : A -> Run A) :
  (forall a, outcome m <> Returned a) -> bind m k = m.
Proof.
  destruct m as [t [a | c | | ]]; intros H; try reflexivity.
  destruct (H a). reflexivity.
Qed.

Lemma append_not_self (a b : string) :
  b <> EmptyString -> String.eqb (a ++ b) a = false.
Proof.
  intros Hb. apply String.eqb_neq. intros E.
  apply (f_equal String.length) in E. rewrite length_app_string in E.
  destruct b; [destruct Hb; reflexivity | simpl in E; lia].
Qed.

Lemma below_staging_is_not_staging (w : World) (name : string) :
  String.eqb (Path.join (Path.join (temporaryBuildDirectory w) "Data") name)
    (temporaryBuildDirectory w) = false.
Proof.
  unfold Path.join. rewrite append_assoc_string.
  apply append_not_self. discriminate.
Qed.

Lemma no_staging_packLoop (w w' : World)
    (dataSourceDirectory pakOutputPath : string) (fileList : list string)
    (fuel : nat) :
  forall fileIdx pakPartNo,
    existsb (stagingEvent w')
      (trace (packLoop w dataSourceDirectory pakOutputPath fuel fileList
                fileIdx pakPartNo)) = false.
Proof.
  induction fuel as [| fuel IH]; intros fileIdx pakPartNo.
  - cbn [packLoop]. destruct (fileIdx <? List.length fileList)%nat; reflexivity.
  - destruct (Nat.lt_ge_cases fileIdx (List.length fileList)) as [Hlt | Hge].
    2:{ rewrite packLoop_done by exact Hge. reflexivity. }
    rewrite (packLoop_turn w dataSourceDirectory pakOutputPath fuel fileList
               pakPartNo Hlt).
    destruct (zipTool w _ _); try reflexivity.
    cbn [trace fst existsb stagingEvent orb].
    rewrite existsb_app, IH.
    destruct (_ && _); reflexivity.
Qed.

Lemma no_staging_packData (w : World) (m : Manifest) (fuel : nat) :
  existsb (stagingEvent w) (trace (packData w m fuel)) = false.
Proof.
  unfold packData.
  set (c := compressToPak w _ _ fuel).
  assert (Hc : existsb (stagingEvent w) (trace c) = false).
  { unfold c, compressToPak, packFileList.
    destruct (buildFileList _ (dataEntries w)) as [| f fl]; [reflexivity |].
    cbn [List.length Nat.eqb]. rewrite bind_when_false.
    apply no_staging_packLoop. }
  destruct c as [t [[] | code | | ]]; try exact Hc.
  rewrite bind_run, removeNonProductionFiles_run.
  cbn [trace fst] in *. rewrite !existsb_app, Hc.
  destruct (existsInData w "Scripts"); destruct (existsInData w "Libs");
    cbn [existsb stagingEvent orb];
    rewrite ?below_staging_is_not_staging; reflexivity.
Qed.

Lemma stagePackBundle_run (w : World) (m : Manifest) (version : string)
    (fuel : nat) :
  stagePackBundle w m version fuel
  = (RmSync (temporaryBuildDirectory w) true
       :: MkdirSync (temporaryBuildDirectory w)
       :: CpSync (sourceDirectory w) (temporaryBuildDirectory w)
       :: trace (packData w m fuel ;;
                 packMod w m (text (modName m) ++ "_" ++ version) ;;
                 ret tt),
     outcome (packData w m fuel ;;
              packMod w m (text (modName m) ++ "_" ++ version) ;;
              ret tt)).
Proof.
  unfold stagePackBundle.
  change (cleanBuildDirectory w)
    with ([RmSync (temporaryBuildDirectory w) true;
           MkdirSync (temporaryBuildDirectory w)], Returned tt).
  rewrite bind_run.
  change (prepareBuild w)
    with ([CpSync (sourceDirectory w) (temporaryBuildDirectory w)], Returned tt).
  rewrite bind_run. reflexivity.
Qed.

(** What follows the copy: either the packing did not return and nothing
    comes after it, or the bundler's events follow it. *)
Lemma pack_then_bundle (w : World) (m : Manifest) (outputFileName : string)
    (fuel : nat) :
  (outcome (packData w m fuel) = Returned tt
   /\ trace (packData w m fuel ;; packMod w m outputFileName ;; ret tt)
      = trace (packData w m fuel) ++ trace (packMod w m outputFileName)
   /\ ((exists p, outcome (packMod w m outputFileName) = Returned p
                  /\ outcome (packData w m fuel ;; packMod w m outputFileName ;;
                              ret tt) = Returned tt)
       \/ (outcome (packMod w m outputFileName) = Threw
           /\ outcome (packData w m fuel ;; packMod w m outputFileName ;;
                       ret tt) = Threw)))
  \/ (outcome (packData w m fuel) <> Returned tt
      /\ (packData w m fuel ;; packMod w m outputFileName ;; ret tt)
         = packData w m fuel).
Proof.
  destruct (packData w m fuel) as [t [[] | c | | ]] eqn:E.
  - left. split; [reflexivity |]. rewrite bind_run.
    cbn [trace outcome fst snd]. rewrite packMod_run.
    destruct (sevenZipTool w _).
    + rewrite bind_run. cbn [trace outcome fst snd ret]. rewrite app_nil_r.
      split; [reflexivity |]. left. eauto.
    + split; [reflexivity |]. right. split; reflexivity.
  - right. split; [discriminate | reflexivity].
  - right. split; [discriminate | reflexivity].
  - right. split; [discriminate | reflexivity].
Qed.

(** X9: a build that returns begins, after its first log line, by removing
    the staging directory, creating it and copying the source tree into
    it; it ends by removing the staging directory and printing two lines,
    the last of which is [ZIP_FILE:] followed by the path of the one
    archive the archival tool was asked to write.  In between, the
    staging directory is neither removed nor created. *)
Theorem returned_build_stages_first_and_cleans_last
    (w : World) (args : list string) (fuel : nat) :
  outcome (main w args fuel) = Returned tt ->
  exists banner packing bundling built archive,
    trace (main w args fuel)
    = ConsoleLog banner
        :: RmSync (temporaryBuildDirectory w) true
        :: MkdirSync (temporaryBuildDirectory w)
        :: CpSync (sourceDirectory w) (temporaryBuildDirectory w)
        :: packing ++ bundling
           ++ [RmSync (temporaryBuildDirectory w) true;
               ConsoleLog built;
               ConsoleLog ("ZIP_FILE:" ++ archive)]
    /\ existsb (stagingEvent w) (packing ++ bundling) = false
    /\ archives packing = []
    /\ archives bundling = [archive].
Proof.
  rewrite main_unfold.
  destruct (includes args "--help"); [discriminate |].
  destruct (includes validEnvironments (parseEnvironment w args)) eqn:Henv;
    cbn [negb]; [| discriminate].
  destruct (includes validVersions (parseVersion w args));
    cbn [negb]; [| discriminate].
  destruct (manifest w) as [content |]; [| discriminate].
  destruct (manifestIncomplete (readManifest content)); [discriminate |].
  set (m := readManifest content). set (version := parseVersion w args).
  destruct (dispatch_banner w m version fuel
              (includes_validEnvironments _ Henv)) as [banner ->].
  rewrite bind_emit, stagePackBundle_run. cbn [trace outcome fst snd].
  set (out := (text (modName m) ++ "_" ++ version)%string).
  intros Hret.
  destruct (pack_then_bundle w m out fuel)
    as [[Hpd [Ht [[p [Hp _]] | [_ Hthrew]]]] | [Hpd Hsame]].
  - rewrite Ht. clear Hret Ht.
    rewrite packMod_run in Hp |- *. cbn [outcome snd trace fst] in *.
    destruct (sevenZipTool w _); [| discriminate Hp].
    destruct (existsAtStart w _).
    + eexists banner, (trace (packData w m fuel)), [_; _; _], _, _.
      split; [reflexivity |].
      split; [rewrite existsb_app, no_staging_packData; reflexivity |].
      split; [apply archives_packData | reflexivity].
    + eexists banner, (trace (packData w m fuel)), [_; _], _, _.
      split; [reflexivity |].
      split; [rewrite existsb_app, no_staging_packData; reflexivity |].
      split; [apply archives_packData | reflexivity].
  - rewrite Hthrew in Hret. discriminate.
  - rewrite Hsame in Hret. contradiction.
Qed.

Lemma returned_build_stages_first_and_cleans_last_witness :
  exists banner packing bundling built archive,
    trace (main smallWorld [] 3)
    = ConsoleLog banner
        :: RmSync (temporaryBuildDirectory smallWorld) true
        :: MkdirSync (temporaryBuildDirectory smallWorld)
        :: CpSync (sourceDirectory smallWorld)
             (temporaryBuildDirectory smallWorld)
        :: packing ++ bundling
           ++ [RmSync (temporaryBuildDirectory smallWorld) true;
               ConsoleLog built;
               ConsoleLog ("ZIP_FILE:" ++ archive)]
    /\ existsb (stagingEvent smallWorld) (packing ++ bundling) = false
    /\ archives packing = []
    /\ archives bundling = [archive].
Proof.
  apply (returned_build_stages_first_and_cleans_last smallWorld [] 3).
  reflexivity.
Defined.

(** X10: a build that does not return leaves the staging directory
    behind: after the event that created it, no event removes it or
    creates it again. *)
Theorem unfinished_build_keeps_staging
    (w : World) (args : list string) (fuel : nat) (t1 t2 : list Event) :
  outcome (main w args fuel) <> Returned tt ->
  trace (main w args fuel)
  = t1 ++ MkdirSync (temporaryBuildDirectory w) :: t2 ->
  existsb (stagingEvent w) t2 = false.
Proof.
  rewrite main_unfold.
  assert (Hone : forall (e : Event),
             isConsole e = true ->
             [e] = t1 ++ MkdirSync (temporaryBuildDirectory w) :: t2 ->
             existsb (stagingEvent w) t2 = false).
  { intros e He E. destruct t1 as [| x [| y t1]]; inversion E; subst.
    discriminate He. }
  destruct (includes args "--help"); [intros _; apply Hone; reflexivity |].
  destruct (includes validEnvironments (parseEnvironment w args)) eqn:Henv;
    cbn [negb]; [| intros _; apply Hone; reflexivity].
  destruct (includes validVersions (parseVersion w args));
    cbn [negb]; [| intros _; apply Hone; reflexivity].
  destruct (manifest w) as [content |]; [| intros _; apply Hone; reflexivity].
  destruct (manifestIncomplete (readManifest content));
    [intros _; apply Hone; reflexivity |].
  set (m := readManifest content). set (version := parseVersion w args).
  destruct (dispatch_banner w m version fuel
              (includes_validEnvironments _ Henv)) as [banner ->].
  rewrite bind_emit, stagePackBundle_run. cbn [trace outcome fst snd].
  set (out := (text (modName m) ++ "_" ++ version)%string).
  intros Hret Htrace.
  assert (Hrest : existsb (stagingEvent w)
                    (trace (packData w m fuel ;; packMod w m out ;; ret tt))
                  = false).
  { destruct (pack_then_bundle w m out fuel)
      as [[Hpd [Ht [[p [_ Hp]] | [Hpm _]]]] | [Hpd Hsame]].
    - destruct (Hret Hp).
    - rewrite Ht, existsb_app, no_staging_packData.
      rewrite packMod_run in *. cbn [outcome snd trace fst] in *.
      destruct (sevenZipTool w _); [discriminate |].
      destruct (existsAtStart w _); reflexivity.
    - rewrite Hsame. apply no_staging_packData. }
  destruct t1 as [| a [| b [| c t1]]]; inversion Htrace; subst.
  - cbn [existsb stagingEvent orb]. exact Hrest.
  - assert (Hc : existsb (stagingEvent w)
                   (CpSync (sourceDirectory w) (temporaryBuildDirectory w)
                      :: trace (packData w m fuel ;; packMod w m out ;; ret tt))
                 = false)
      by (cbn [existsb stagingEvent orb]; exact Hrest).
    match goal with
    | H : CpSync _ _ :: _ = _ |- _ => rewrite H in Hc
    end.
    rewrite existsb_app in Hc. cbn [existsb stagingEvent] in Hc.
    rewrite String.eqb_refl in Hc.
    rewrite orb_true_r in Hc. discriminate.
Qed.

Lemma unfinished_build_keeps_staging_witness :
  existsb (stagingEvent brokenZipWorld)
    [CpSync "/mod/src" "/mod/temp_build";
     ConsoleLog ("Creating pak part 0: "
                 ++ render (Zip "/mod/temp_build/Data/no_combat_music.pak"
                              ["a.xml"]));
     ExecSync (Zip "/mod/temp_build/Data/no_combat_music.pak" ["a.xml"])
       (Some "/mod/temp_build/Data")] = false.
Proof.
  apply (@unfinished_build_keeps_staging brokenZipWorld [] 3
           [ConsoleLog "Building production version (main)...";
            RmSync "/mod/temp_build" true]).
  - discriminate.
  - reflexivity.
Defined.

(** ** The enumeration and the tree *)

Lemma buildFileEntry_in_tree (e : Entry) :
  forall dir p items,
    In e items -> In p (buildFileEntry dir e) -> InTree dir items p.
Proof.
  induction e as [name | name sub IH] using Entry_nested_ind;
    intros dir p items He Hp.
  - rewrite buildFileEntry_file in Hp.
    destruct (negb _); simpl in Hp; [| destruct Hp].
    destruct Hp as [<- | []]. apply InTree_here. exact He.
  - rewrite buildFileEntry_dir in Hp. unfold buildFileList in Hp.
    apply in_flat_map in Hp. destruct Hp as [i [Hi Hp]].
    rewrite Forall_forall in IH.
    apply (@InTree_below dir items name sub p He).
    apply (IH i Hi _ _ sub Hi Hp).
Qed.

(** X11: the enumeration holds exactly the plain files of the tree whose
    path, in lower case, does not end in [.pak]: no such file is left out
    and nothing else is listed.  Directories are entered whatever their
    name. *)
Theorem enumeration_is_tree_without_paks
    (dir : string) (items : list Entry) (p : string) :
  In p (buildFileList dir items)
  <-> InTree dir items p /\ endsWith (toLowerCase p) ".pak" = false.
Proof.
  split.
  - intros Hin. split; [| apply (buildFileList_no_pak _ _ _ Hin)].
    unfold buildFileList in Hin. apply in_flat_map in Hin.
    destruct Hin as [e [He Hp]].
    apply (buildFileEntry_in_tree e dir p items He Hp).
  - intros [Htree Hpak]. induction Htree as [dir items name Hin
                                            | dir items name sub p Hin Hsub IH].
    + unfold buildFileList. apply in_flat_map. exists (EFile name).
      split; [exact Hin |]. rewrite buildFileEntry_file, Hpak. left. reflexivity.
    + unfold buildFileList. apply in_flat_map. exists (EDir name sub).
      split; [exact Hin |]. rewrite buildFileEntry_dir. apply IH. exact Hpak.
Qed.

Lemma enumeration_is_tree_without_paks_witness :
  In "/d/old.pak/Readme.TXT"
    (buildFileList "/d" [EFile "x.PAK"; EDir "old.pak" [EFile "Readme.TXT"]]).
Proof.
  apply (proj2 (enumeration_is_tree_without_paks "/d"
                  [EFile "x.PAK"; EDir "old.pak" [EFile "Readme.TXT"]]
                  "/d/old.pak/Readme.TXT")).
  split; [| reflexivity].
  apply (@InTree_below "/d" _ "old.pak" [EFile "Readme.TXT"]).
  - right. left. reflexivity.
  - apply (@InTree_here "/d/old.pak" [EFile "Readme.TXT"] "Readme.TXT").
    left. reflexivity.
Defined.

(** ** Names relative to the data directory *)

Lemma prefix_app (a b : string) : String.prefix a (a ++ b) = true.
Proof.
  induction a as [| c a IH]; simpl; [destruct b; reflexivity |].
  destruct (ascii_dec c c); [exact IH | congruence].
Qed.

Lemma dropChars_app (a b : string) : dropChars (String.length a) (a ++ b) = b.
Proof. induction a as [| c a IH]; simpl; [reflexivity | exact IH]. Qed.

Lemma relative_join (dir r : string) :
  Path.relative dir (Path.join dir r) = r.
Proof.
  unfold Path.relative, Path.join.
  rewrite <- append_assoc_string, prefix_app.
  replace (String.length dir + 1) with (String.length (dir ++ "/"))
    by apply length_app_string.
  apply dropChars_app.
Qed.

Lemma InTree_below_dir (dir : string) (items : list Entry) (p : string) :
  InTree dir items p -> exists r, p = Path.join dir r.
Proof.
  intros H. induction H as [dir items name _ | dir items name sub p _ _ [r ->]].
  - exists name. reflexivity.
  - exists (Path.join name r). unfold Path.join.
    rewrite !append_assoc_string. reflexivity.
Qed.

Lemma zipRunsIn_packLoop (w : World)
    (dataSourceDirectory pakOutputPath : string) (fileList : list string)
    (fuel : nat) :
  forall fileIdx pakPartNo,
    forallb (zipRunsIn dataSourceDirectory)
      (trace (packLoop w dataSourceDirectory pakOutputPath fuel fileList
                fileIdx pakPartNo)) = true.
Proof.
  induction fuel as [| fuel IH]; intros fileIdx pakPartNo.
  - cbn [packLoop]. destruct (fileIdx <? List.length fileList)%nat; reflexivity.
  - destruct (Nat.lt_ge_cases fileIdx (List.length fileList)) as [Hlt | Hge].
    2:{ rewrite packLoop_done by exact Hge. reflexivity. }
    rewrite (packLoop_turn w dataSourceDirectory pakOutputPath fuel fileList
               pakPartNo Hlt).
    destruct (zipTool w _ _); cbn [trace fst forallb zipRunsIn andb];
      rewrite String.eqb_refl; try reflexivity.
    rewrite forallb_app, IH.
    destruct ((_ <? _)%nat && (_ =? _)%nat); reflexivity.
Qed.

(** X12: the compression tool is always run in the data directory, and
    every name it is given, joined to that directory, is one of the
    enumerated paths: the archive holds the files under their paths
    relative to the data directory. *)
Theorem zip_gets_names_relative_to_data
    (w : World) (dataSourceDirectory pakOutputPath : string) (fuel : nat)
    (f : string) :
  In f (zippedFiles (trace (compressToPak w dataSourceDirectory pakOutputPath
                              fuel))) ->
  In (Path.join dataSourceDirectory f)
    (buildFileList dataSourceDirectory (dataEntries w))
  /\ forallb (zipRunsIn dataSourceDirectory)
       (trace (compressToPak w dataSourceDirectory pakOutputPath fuel)) = true.
Proof.
  intros Hin. split.
  - unfold compressToPak in Hin.
    apply packFileList_zipped_from_list in Hin.
    destruct Hin as [p [Hp ->]].
    assert (Htree : InTree dataSourceDirectory (dataEntries w) p).
    { unfold buildFileList in Hp. apply in_flat_map in Hp.
      destruct Hp as [e [He Hp]].
      apply (buildFileEntry_in_tree e _ _ _ He Hp). }
    destruct (InTree_below_dir Htree) as [r ->].
    rewrite relative_join. exact Hp.
  - unfold compressToPak, packFileList.
    destruct (buildFileList dataSourceDirectory (dataEntries w)) as [| f0 fl];
      [reflexivity |].
    cbn [List.length Nat.eqb]. rewrite bind_when_false.
    apply zipRunsIn_packLoop.
Qed.

Lemma zip_gets_names_relative_to_data_witness :
  In "/mod/temp_build/Data/Music/b.ogg"
    (buildFileList "/mod/temp_build/Data" (dataEntries fourFilesWorld)).
Proof.
  apply (proj1 (@zip_gets_names_relative_to_data fourFilesWorld
                  "/mod/temp_build/Data"
                  "/mod/temp_build/Data/no_combat_music.pak" 4
                  "Music/b.ogg" ltac:(vm_compute; tauto))).
Defined.

(** ** What the manifest reader finds *)

Lemma prefix_split (a s : string) :
  String.prefix a s = true -> s = (a ++ dropChars (String.length a) s)%string.
Proof.
  revert s. induction a as [| c a IH]; intros s H; [reflexivity |].
  destruct s as [| d s]; simpl in H; [discriminate |].
  destruct (ascii_dec c d) as [-> |]; [| discriminate].
  simpl. f_equal. apply IH. exact H.
Qed.

Lemma lazyCapture_sound (close s v : string) :
  lazyCapture close s = Some v ->
  v <> EmptyString /\ lineFree v = true
  /\ exists post, s = (v ++ close ++ post)%string.
Proof.
  revert v. induction s as [| c s IH]; intros v H; simpl in H; [discriminate |].
  destruct (isLineTerminator c) eqn:Ec; [discriminate |].
  destruct (String.prefix close s) eqn:Ep.
  - inversion H. subst v. split; [discriminate |].
    split; [simpl; rewrite Ec; reflexivity |].
    exists (dropChars (String.length close) s). simpl. f_equal.
    apply prefix_split. exact Ep.
  - destruct (lazyCapture close s) as [v' |] eqn:Ev; [| discriminate].
    inversion H. subst v.
    destruct (IH v' eq_refl) as [_ [Hline [post Hs]]].
    split; [discriminate |].
    split; [simpl; rewrite Ec, Hline; reflexivity |].
    exists post. simpl. f_equal. exact Hs.
Qed.

Lemma execTag_sound (open close content v : string) :
  execTag open close content = Some v ->
  v <> EmptyString /\ lineFree v = true
  /\ exists pre post, content = (pre ++ open ++ v ++ close ++ post)%string.
Proof.
  induction content as [| c rest IH]; rewrite execTag_eq.
  - destruct (String.prefix open EmptyString) eqn:Ep.
    + destruct (lazyCapture close _) as [v' |] eqn:Ev; [| discriminate].
      intros H. inversion H. subst v'.
      destruct (lazyCapture_sound _ _ Ev) as [H1 [H2 [post Hs]]].
      split; [exact H1 |]. split; [exact H2 |].
      exists EmptyString, post. simpl.
      rewrite (prefix_split _ _ Ep) at 1. rewrite Hs. reflexivity.
    + discriminate.
  - destruct (String.prefix open (String c rest)) eqn:Ep.
    + destruct (lazyCapture close _) as [v' |] eqn:Ev.
      * intros H. inversion H. subst v'.
        destruct (lazyCapture_sound _ _ Ev) as [H1 [H2 [post Hs]]].
        split; [exact H1 |]. split; [exact H2 |].
        exists EmptyString, post. simpl.
        rewrite (prefix_split _ _ Ep) at 1. rewrite Hs. reflexivity.
      * intros H. destruct (IH H) as [H1 [H2 [pre [post ->]]]].
        split; [exact H1 |]. split; [exact H2 |].
        exists (String c pre), post. reflexivity.
    + intros H. destruct (IH H) as [H1 [H2 [pre [post ->]]]].
      split; [exact H1 |]. split; [exact H2 |].
      exists (String c pre), post. reflexivity.
Qed.

(** X13: what the reader returns for a field really stands in the
    manifest between the opening and the closing tag of that field, is
    not empty and holds no line break. *)
Theorem tagged_value_stands_in_manifest (tag content v : string) :
  tagged tag content = Some v ->
  v <> EmptyString
  /\ lineFree v = true
  /\ exists pre post,
       content
       = (pre ++ ("<" ++ tag ++ ">") ++ v ++ ("</" ++ tag ++ ">") ++ post)%string.
Proof. unfold tagged. apply execTag_sound. Qed.

Lemma tagged_value_stands_in_manifest_witness :
  lineFree "No Combat Music" = true
  /\ exists pre post,
       sampleManifest
       = (pre ++ ("<" ++ "name" ++ ">") ++ "No Combat Music"
          ++ ("</" ++ "name" ++ ">") ++ post)%string.
Proof.
  apply (proj2 (@tagged_value_stands_in_manifest "name" sampleManifest
                  "No Combat Music" eq_refl)).
Defined.

Lemma lazyCapture_exact (cl post : string) (v' : string) :
  forall c,
    lineFree (String c v') = true ->
    occursIn "<" v' = false ->
    lazyCapture (String "<" cl) (String c v' ++ String "<" cl ++ post)
    = Some (String c v').
Proof.
  induction v' as [| d v' IH]; intros c Hline Hlt.
  - cbn [lineFree] in Hline. apply andb_true_iff in Hline.
    destruct Hline as [Hc _]. apply negb_true_iff in Hc.
    cbn [append lazyCapture]. rewrite Hc.
    change (String "<" (cl ++ post)) with (String "<" cl ++ post)%string.
    rewrite prefix_app. reflexivity.
  - cbn [lineFree] in Hline. apply andb_true_iff in Hline.
    destruct Hline as [Hc Hrest]. apply negb_true_iff in Hc.
    cbn [occursIn] in Hlt. apply orb_false_iff in Hlt. destruct Hlt as [Hd Hv'].
    specialize (IH d Hrest Hv').
    change (String c (String d v') ++ String "<" cl ++ post)%string
      with (String c (String d v' ++ String "<" cl ++ post)).
    cbn [lazyCapture]. rewrite Hc.
    assert (Hp : String.prefix (String "<" cl)
                   (String d v' ++ String "<" cl ++ post) = false).
    { cbn [append String.prefix].
      destruct (ascii_dec "<" d) as [<- |]; [| reflexivity].
      rewrite Ascii.eqb_refl in Hd. discriminate Hd. }
    rewrite Hp, IH. reflexivity.
Qed.

Lemma execTag_first (open cl post v : string) (pre : string) :
  v <> EmptyString ->
  lineFree v = true ->
  occursIn "<" (dropChars 1 v) = false ->
  noOccurrenceBefore open (String.length pre)
    (pre ++ open ++ v ++ String "<" cl ++ post) = true ->
  execTag open (String "<" cl) (pre ++ open ++ v ++ String "<" cl ++ post)
  = Some v.
Proof.
  intros Hne Hline Hlt.
  destruct v as [| c v']; [destruct Hne; reflexivity |].
  cbn [dropChars] in Hlt.
  induction pre as [| x pre IH]; intros Hno; rewrite execTag_eq.
  - cbn [append]. rewrite prefix_app, dropChars_app.
    pose proof (@lazyCapture_exact cl post v' c Hline Hlt) as E.
    cbn [append] in E. rewrite E. reflexivity.
  - cbn [String.length noOccurrenceBefore] in Hno.
    apply andb_true_iff in Hno. destruct Hno as [Hhere Hrest].
    apply negb_true_iff in Hhere. rewrite Hhere.
    cbn [append] in *. apply IH. exact Hrest.
Qed.

(** X14: the first occurrence of a field decides.  When the opening tag
    does not occur earlier in the manifest and the value that follows it
    is not empty, holds no line break and, after its first character, no
    [<], the reader returns exactly that value, whatever comes after the
    closing tag. *)
Theorem first_tagged_field_is_read (tag pre v post : string) :
  v <> EmptyString ->
  lineFree v = true ->
  occursIn "<" (dropChars 1 v) = false ->
  noOccurrenceBefore ("<" ++ tag ++ ">") (String.length pre)
    (pre ++ ("<" ++ tag ++ ">") ++ v ++ ("</" ++ tag ++ ">") ++ post) = true ->
  tagged tag (pre ++ ("<" ++ tag ++ ">") ++ v ++ ("</" ++ tag ++ ">") ++ post)
  = Some v.
Proof.
  intros Hne Hline Hlt Hno. unfold tagged.
  apply (@execTag_first ("<" ++ tag ++ ">") ("/" ++ tag ++ ">") post v pre
           Hne Hline Hlt Hno).
Qed.

Lemma first_tagged_field_is_read_witness :
  tagged "version"
    ("<modid>m</modid> " ++ ("<" ++ "version" ++ ">") ++ "1.2"
     ++ ("</" ++ "version" ++ ">") ++ "<version>9.9</version>")
  = Some "1.2".
Proof.
  apply (@first_tagged_field_is_read "version" "<modid>m</modid> " "1.2"
           "<version>9.9</version>").
  - discriminate.
  - reflexivity.
  - reflexivity.
  - reflexivity.
Defined.
